(** * eltako14bus: the ESP2 frame codec, the Eltako messages and the bus
    enumerator of [enumerate.py], embedded in Rocq.

    Python [bytes] values are lists of integers; an element is a byte when
    it lies in [0, 256).  Exceptions are values of [exn]; a computation
    that may raise returns a [result].  The CoAP transport is a parameter
    of the development: a state type and a request function. *)

From Stdlib Require Import ZArith Lia Ascii String.
From stdpp Require Import base tactics option list.

Local Open Scope Z_scope.

(** ** Exceptions and results *)

Inductive exn : Type :=
  | ParseError (msg : string)
  | TimeoutError
  | IndexError
  | ValueError
  | AssertionError
  | TransportError
  | Exception (msg : string).

Inductive result (A : Type) : Type :=
  | Ok (a : A)
  | Raise (e : exn).
Arguments Ok {A} a.
Arguments Raise {A} e.

Definition bind {A B} (r : result A) (k : A -> result B) : result B :=
  match r with
  | Ok a => k a
  | Raise e => Raise e
  end.

Notation "x <- r ;; k" := (bind r (fun x => k))
  (at level 100, r at next level, right associativity).

Definition is_ParseError {A} (r : result A) : Prop :=
  exists msg, r = Raise (ParseError msg).

Definition is_Ok {A} (r : result A) : Prop :=
  exists a, r = Ok a.

(** ** Bytes *)

Abbreviation bytes := (list Z).

Definition is_byte (b : Z) : bool := (0 <=? b) && (b <? 256).

(** [bytes(iterable)]: every element has to be in [range(256)]. *)
Definition mk_bytes (l : list Z) : result bytes :=
  if forallb is_byte l then Ok l else Raise ValueError.

(** [sum(b)] *)
Definition bsum (l : list Z) : Z := foldr Z.add 0 l.

(** [l[i]] for a non-negative index. *)
Definition getitem (l : bytes) (i : nat) : result Z :=
  match l !! i with
  | Some x => Ok x
  | None => Raise IndexError
  end.

(** [l[i:j]] for non-negative bounds: slicing clips, it never raises. *)
Definition slice {A} (l : list A) (i j : nat) : list A := take (j - i) (drop i l).

Definition bytes_eqb (a b : bytes) : bool := bool_decide (a = b).

Definition preamble : bytes := [165; 90].

(** ** ESP2Message *)

Record ESP2Message := mkESP2 { esp2_body : bytes }.

Definition ESP2Message_serialize (body : bytes) : bytes :=
  preamble ++ body ++ [bsum body mod 256].

Definition ESP2Message_parse (data : bytes) : result ESP2Message :=
  if negb (bytes_eqb (slice data 0 2) preamble) then
    Raise (ParseError "No preamble found")
  else if negb (length data =? 14)%nat then
    Raise (ParseError "Invalid message length")
  else
    let body := slice data 2 13 in
    last_byte <- getitem data 13;;
    if negb (bsum body mod 256 =? last_byte) then
      Raise (ParseError "Checksum mismatch")
    else Ok (mkESP2 body).

(** ** EltakoMessage *)

Record EltakoMessage := mkEltako {
  org : Z;
  address : Z;
  payload : bytes;
  is_request : bool }.

Definition zeros8 : bytes := [0; 0; 0; 0; 0; 0; 0; 0].

Definition TCT : Z := Z.shiftl 5 5 + 11.
Definition RMT : Z := Z.shiftl 4 5 + 11.

Definition EltakoMessage_body (m : EltakoMessage) : result bytes :=
  mk_bytes ((if is_request m then TCT else RMT) :: org m :: payload m ++ [address m]).

Definition EltakoMessage_serialize (m : EltakoMessage) : result bytes :=
  body <- EltakoMessage_body m;;
  Ok (ESP2Message_serialize body).

(** The dictionary [{(5 << 5) + 11: True, (4 << 5) + 11: False}]; [None]
    is the [KeyError]. *)
Definition direction_of (code : Z) : option bool :=
  if code =? TCT then Some true
  else if code =? RMT then Some false
  else None.

Definition EltakoMessage_parse (data : bytes) : result EltakoMessage :=
  esp2message <- ESP2Message_parse data;;
  code <- getitem (esp2_body esp2message) 0;;
  match direction_of code with
  | None => Raise (ParseError "Code is neither TCT nor RMT")
  | Some is_request =>
      org <- getitem (esp2_body esp2message) 1;;
      address <- getitem (esp2_body esp2message) 10;;
      let payload := slice (esp2_body esp2message) 2 10 in
      Ok (mkEltako org address payload is_request)
  end.

(** ** EltakoDiscoveryReply *)

Record EltakoDiscoveryReply := mkReply {
  reported_address : Z;
  reported_size : Z;
  model : bytes }.

Definition discovery_org : Z := 240.
Definition discovery_is_request : bool := false.
Definition discovery_address : Z := 0.

Definition EltakoDiscoveryReply_parse (data : bytes) : result EltakoDiscoveryReply :=
  eltakomessage <- EltakoMessage_parse data;;
  if negb (org eltakomessage =? discovery_org)
     || negb (eqb (is_request eltakomessage) discovery_is_request)
     || negb (address eltakomessage =? discovery_address) then
    Raise (ParseError "This is not an EltakoDiscoveryReply")
  else if negb (bytes_eqb (slice (payload eltakomessage) 2 4) [127; 8]) then
    Raise (ParseError "Assumed fixed part 7F 08 not present")
  else
    reported_address <- getitem (payload eltakomessage) 0;;
    reported_size <- getitem (payload eltakomessage) 1;;
    let model := slice (payload eltakomessage) 4 8 in
    Ok (mkReply reported_address reported_size model).

(** ** EltakoTimeout *)

Inductive EltakoTimeout := mkTimeout.

Definition timeout_org : Z := 248.
Definition timeout_is_request : bool := false.
Definition timeout_payload : bytes := zeros8.
Definition timeout_address : Z := 0.

Definition EltakoTimeout_parse (data : bytes) : result EltakoTimeout :=
  esp2message <- EltakoMessage_parse data;;
  if negb (org esp2message =? timeout_org)
     || negb (eqb (is_request esp2message) timeout_is_request)
     || negb (bytes_eqb (payload esp2message) timeout_payload)
     || negb (address esp2message =? timeout_address) then
    Raise (ParseError "Does not look like an EltakoTimeout")
  else Ok mkTimeout.

(** ** The transport and [exchange] *)

(** The CoAP client context: posting a payload yields the response payload
    or a failure of the transport, and moves the bus to its next state. *)
Class Transport (Bus : Type) := request : Bus -> bytes -> result bytes * Bus.

Definition exchange `{Transport Bus} {A} (context : Bus) (req : EltakoMessage)
    (responsetype_parse : bytes -> result A) : result A * Bus :=
  match EltakoMessage_serialize req with
  | Raise e => (Raise e, context)
  | Ok coap_request =>
      match request context coap_request with
      | (Raise e, context') => (Raise e, context')
      | (Ok coap_response, context') =>
          (match responsetype_parse coap_response with
           | Raise (ParseError msg) =>
               match EltakoTimeout_parse coap_response with
               | Raise (ParseError _) => Raise (ParseError msg)
               | Raise e => Raise e
               | Ok _ => Raise TimeoutError
               end
           | r => r
           end, context')
      end
  end.

(** ** The bus enumerator *)

(** An entry of [usage_map]: [None], [False] or [True]. *)
Abbreviation Unknown := (@None bool).
Abbreviation Free := (Some false).
Abbreviation Occupied := (Some true).

Abbreviation usage := (list (option bool)).

(** What [enumerate] shows on the console, and the requests it sends. *)
Inductive event : Type :=
  | Sent (req : EltakoMessage)
  | PrintScanning
  | PrintDiscovered (at_address : nat) (size : Z) (model : bytes)
  | PrintScanCompleted
  | PrintLrnHint
  | PrintLrnAvailable (model : bytes) (size : Z)
  | PrintDirty
  | PrintAssigned (i : nat).

Definition discovery_request (a : nat) : EltakoMessage :=
  mkEltako 240 (Z.of_nat a) zeros8 true.

Definition assign_request (a : nat) : EltakoMessage :=
  mkEltako 248 (Z.of_nat a) zeros8 true.

(** The outcome of one pass through a loop body. *)
Inductive step (S Bus : Type) : Type :=
  | Continue (s : S) (context : Bus) (out : list event)
  | Break (s : S) (context : Bus) (out : list event)
  | Abort (e : exn) (out : list event).
Arguments Continue {S Bus} s context out.
Arguments Break {S Bus} s context out.
Arguments Abort {S Bus} e out.

(** One evaluation of [while len(usage_map) < 255: ...]. *)
Definition scan_step `{Transport Bus} (context : Bus) (usage_map : usage)
    : step usage Bus :=
  if (length usage_map <? 255)%nat then
    let n := length usage_map in
    match exchange context (discovery_request n) EltakoDiscoveryReply_parse with
    | (Raise TimeoutError, context') =>
        Continue (usage_map ++ [Free]) context' [Sent (discovery_request n)]
    | (Raise e, _) => Abort e [Sent (discovery_request n)]
    | (Ok response, context') =>
        if negb (Z.of_nat n =? reported_address response) then
          Abort AssertionError [Sent (discovery_request n)]
        else
          Continue
            (usage_map ++ replicate (Z.to_nat (reported_size response)) Occupied)
            context'
            [Sent (discovery_request n);
             PrintDiscovered n (reported_size response) (model response)]
    end
  else Break usage_map context [].

(** [any(l)] on entries of the map: only [True] is truthy. *)
Definition any (l : usage) : bool :=
  existsb (fun x => match x with Occupied => true | _ => false end) l.

(** [for i in range(1, 254 - size): if not any(usage_map[i:i+size]): break]
    with [None] for the [else] branch of the loop.  [size] is a byte of the
    reply, so it is not negative and the range has [253 - size] elements
    (none when [size >= 253]). *)
Definition find_slot (usage_map : usage) (size : nat) : option nat :=
  List.find (fun i => negb (any (slice usage_map i (i + size)))) (seq 1 (253 - size)).

(** [l[i:j] = v] for [0 <= i <= j]. *)
Definition slice_assign {A} (l : list A) (i j : nat) (v : list A) : list A :=
  take i l ++ v ++ drop j l.

Record lrn_state := mkLrn { usage_map : usage; reported : bool }.

(** One evaluation of the body of [while True: ...]. *)
Definition lrn_step `{Transport Bus} (context : Bus) (st : lrn_state)
    : step lrn_state Bus :=
  let probe := discovery_request 0 in
  match exchange context probe EltakoDiscoveryReply_parse with
  | (Raise TimeoutError, context1) =>
      if reported st then Continue st context1 [Sent probe]
      else Continue (mkLrn (usage_map st) true) context1 [Sent probe; PrintLrnHint]
  | (Raise e, _) => Abort e [Sent probe]
  | (Ok response, context1) =>
      let size := Z.to_nat (reported_size response) in
      let out1 := [Sent probe; PrintLrnAvailable (model response) (reported_size response)] in
      match find_slot (usage_map st) size with
      | None => Abort (Exception "No suitable free space in usage map") out1
      | Some i =>
          let usage_map' :=
            slice_assign (usage_map st) i (i + size) (replicate size Occupied) in
          let out2 := out1 ++ [Sent (assign_request i)] in
          match exchange context1 (assign_request i) EltakoDiscoveryReply_parse with
          | (Raise e, _) => Abort e out2
          | (Ok response2, context2) =>
              if reported_address response2 =? 0 then
                Continue (mkLrn usage_map' (reported st)) context2 (out2 ++ [PrintDirty])
              else if negb (reported_address response2 =? Z.of_nat i) then
                Abort AssertionError out2
              else
                Continue (mkLrn usage_map' (reported st)) context2
                  (out2 ++ [PrintAssigned i])
          end
      end
  end.

(** The two loops of [enumerate], one after the other. *)
Inductive phase := Scanning | Learning.

Record config (Bus : Type) := mkConfig {
  cfg_phase : phase;
  cfg_state : lrn_state;
  cfg_context : Bus }.
Arguments mkConfig {Bus} _ _ _.
Arguments cfg_phase {Bus} _.
Arguments cfg_state {Bus} _.
Arguments cfg_context {Bus} _.

Definition enumerate_init {Bus} (context : Bus) : config Bus :=
  mkConfig Scanning (mkLrn [Unknown] false) context.

Definition enumerate_step `{Transport Bus} (c : config Bus)
    : result (config Bus) * list event :=
  match cfg_phase c with
  | Scanning =>
      match scan_step (cfg_context c) (usage_map (cfg_state c)) with
      | Continue m context' out =>
          (Ok (mkConfig Scanning (mkLrn m (reported (cfg_state c))) context'), out)
      | Break m context' out =>
          (Ok (mkConfig Learning (mkLrn m false) context'), out ++ [PrintScanCompleted])
      | Abort e out => (Raise e, out)
      end
  | Learning =>
      match lrn_step (cfg_context c) (cfg_state c) with
      | Continue st context' out | Break st context' out =>
          (Ok (mkConfig Learning st context'), out)
      | Abort e out => (Raise e, out)
      end
  end.

(** [fuel] passes through the loop bodies, starting from [c]. *)
Fixpoint enumerate_steps `{Transport Bus} (fuel : nat) (c : config Bus)
    : result (config Bus) * list event :=
  match fuel with
  | O => (Ok c, [])
  | S fuel' =>
      match enumerate_step c with
      | (Ok c', out) =>
          let '(r, out') := enumerate_steps fuel' c' in (r, out ++ out')
      | (Raise e, out) => (Raise e, out)
      end
  end.

Definition enumerate `{Transport Bus} (fuel : nat) (context : Bus)
    : result (config Bus) * list event :=
  let '(r, out) := enumerate_steps fuel (enumerate_init context) in
  (r, PrintScanning :: out).

(** ** Simulated buses *)

(** A bus that plays back a script of responses, one for each request. *)
#[export] Instance script_bus : Transport (list (result bytes)) :=
  fun script _ =>
    match script with
    | [] => (Raise TransportError, [])
    | r :: script' => (r, script')
    end.

(** A bus with a fixed table of devices [(address, size)]: a discovery
    request to the base address of a device is answered by that device,
    every other request by the gateway's timeout frame. *)
Definition reply_frame (a size : Z) : bytes :=
  ESP2Message_serialize ([RMT; 240; a; size; 127; 8; 0; 0; 0; 1] ++ [0]).

Definition timeout_frame : bytes :=
  ESP2Message_serialize ([RMT; 248] ++ zeros8 ++ [0]).

#[export] Instance table_bus : Transport (list (Z * Z)) :=
  fun devices req =>
    match req !! 12%nat with
    | None => (Raise TransportError, devices)
    | Some a =>
        match List.find (fun d => fst d =? a) devices with
        | Some (a, size) => (Ok (reply_frame a size), devices)
        | None => (Ok timeout_frame, devices)
        end
    end.

(** Flipping bit [k] of the byte at position [p]. *)
Definition flip_bit (p k : nat) (data : bytes) : bytes :=
  alter (fun b => Z.lxor b (Z.shiftl 1 (Z.of_nat k))) p data.

(** ** Predicates of the statements *)

(** The frames [ESP2Message.parse] accepts. *)
Definition well_framed (data : bytes) : Prop :=
  slice data 0 2 = preamble /\ length data = 14%nat /\
  data !! 13%nat = Some (bsum (slice data 2 13) mod 256).

(** A parse result that is a value or a [ParseError], nothing else. *)
Definition returns_or_ParseError {A} (r : result A) : Prop :=
  match r with
  | Ok _ => True
  | Raise e => exists msg, e = ParseError msg
  end.

(** [m'] is [m] followed by [k] new entries, all equal to [x]. *)
Definition advanced (m m' : usage) (k : nat) (x : option bool) : Prop :=
  length m' = (length m + k)%nat /\
  (forall j, (j < length m)%nat -> m' !! j = m !! j) /\
  (forall j, (length m <= j < length m + k)%nat -> m' !! j = Some x).

(** The map has an entry for every address from 1 to 254. *)
Definition covers (m : usage) : Prop :=
  forall i, (1 <= i <= 254)%nat -> is_Some (m !! i).

(** No address in [i, i + size) is marked [Occupied]. *)
Definition available (m : usage) (i size : nat) : Prop :=
  forall j, (i <= j < i + size)%nat -> m !! j <> Some Occupied.

(** The events of one pass. *)
Definition step_out {S Bus} (s : step S Bus) : list event :=
  match s with
  | Continue _ _ out | Break _ _ out | Abort _ out => out
  end.

(** An entry never loses certainty: [Occupied] stays, [Free] stays or
    becomes [Occupied]. *)
Definition entry_le (x y : option bool) : Prop :=
  match x with
  | Occupied => y = Occupied
  | Free => y = Free \/ y = Occupied
  | None => True
  end.

(** [m'] is at least as long as [m] and no entry of [m] lost certainty. *)
Definition usage_le (m m' : usage) : Prop :=
  (length m <= length m')%nat /\
  forall j x, m !! j = Some x -> exists y, m' !! j = Some y /\ entry_le x y.

(** ** Serializing the specialized messages *)

(** [EltakoDiscoveryReply.payload]; the [body] and [serialize] the class
    inherits read it together with the class attributes [org],
    [is_request] and [address]. *)
Definition EltakoDiscoveryReply_payload (r : EltakoDiscoveryReply) : result bytes :=
  head4 <- mk_bytes [reported_address r; reported_size r; 127; 8];;
  Ok (head4 ++ model r).

Definition EltakoDiscoveryReply_body (r : EltakoDiscoveryReply) : result bytes :=
  payload <- EltakoDiscoveryReply_payload r;;
  mk_bytes ((if discovery_is_request then TCT else RMT)
              :: discovery_org :: payload ++ [discovery_address]).

Definition EltakoDiscoveryReply_serialize (r : EltakoDiscoveryReply) : result bytes :=
  body <- EltakoDiscoveryReply_body r;;
  Ok (ESP2Message_serialize body).

(** [EltakoTimeout().serialize()]: the inherited [body] over the class
    attributes. *)
Definition EltakoTimeout_serialize : result bytes :=
  EltakoMessage_serialize
    (mkEltako timeout_org timeout_address timeout_payload timeout_is_request).

(** ** [b2a] *)

Definition hex_digit (d : Z) : ascii :=
  nth (Z.to_nat d) (list_ascii_of_string "0123456789abcdef") "0"%char.

(** The digits of [n >= 0] in base 16, most significant first. *)
Fixpoint hex_digits (fuel : nat) (n : Z) (acc : list ascii) : list ascii :=
  match fuel with
  | O => acc
  | S fuel' =>
      let acc' := hex_digit (n mod 16) :: acc in
      if n / 16 =? 0 then acc' else hex_digits fuel' (n / 16) acc'
  end.

Definition hex (n : Z) : list ascii :=
  hex_digits (S (Z.to_nat (Z.log2 n))) n [].

(** ["%02x" % b]: lower-case digits, padded with a zero to two characters;
    the sign of a negative number counts for the width. *)
Definition format_02x (b : Z) : list ascii :=
  if b <? 0 then "-"%char :: hex (- b)
  else
    let digits := hex b in
    if (length digits <? 2)%nat then "0"%char :: digits else digits.

(** [sep.join(parts)] *)
Fixpoint join (sep : list ascii) (parts : list (list ascii)) : list ascii :=
  match parts with
  | [] => []
  | p :: ps =>
      match ps with
      | [] => p
      | _ :: _ => p ++ sep ++ join sep ps
      end
  end.

Definition b2a (rawdata : bytes) : list ascii :=
  join [" "%char] (List.map format_02x rawdata).

(** ** [assign] *)

(** [assign] talks to the transport itself and reads both responses with
    [EltakoMessage.parse]; the third component lists what it printed. *)
Definition assign `{Transport Bus} (context : Bus) (new_busaddress : Z)
    : result unit * Bus * list EltakoMessage :=
  match EltakoMessage_serialize (mkEltako 240 0 zeros8 true) with
  | Raise e => (Raise e, context, [])
  | Ok request1 =>
      match request context request1 with
      | (Raise e, context1) => (Raise e, context1, [])
      | (Ok response1, context1) =>
          match EltakoMessage_parse response1 with
          | Raise e => (Raise e, context1, [])
          | Ok eltako_response1 =>
              match EltakoMessage_serialize (mkEltako 248 new_busaddress zeros8 true) with
              | Raise e => (Raise e, context1, [eltako_response1])
              | Ok request2 =>
                  match request context1 request2 with
                  | (Raise e, context2) => (Raise e, context2, [eltako_response1])
                  | (Ok response2, context2) =>
                      match EltakoMessage_parse response2 with
                      | Raise e => (Raise e, context2, [eltako_response1])
                      | Ok eltako_response2 =>
                          (Ok tt, context2, [eltako_response1; eltako_response2])
                      end
                  end
              end
          end
      end
  end.

(** A bus on which nobody answers: the gateway's timeout frame, always. *)
#[export] Instance silent_bus : Transport unit :=
  fun _ _ => (Ok timeout_frame, tt).

(** ** Further predicates *)

(** The leading byte of the body of an [EltakoMessage]. *)
Definition direction_code (is_request : bool) : Z := if is_request then TCT else RMT.

(** Every element is a byte. *)
Definition is_bytes (l : bytes) : Prop := forallb is_byte l = true.

(** The requests the enumerator may send. *)
Definition valid_request (req : EltakoMessage) : Prop :=
  (exists a, (a <= 254)%nat /\ req = discovery_request a) \/
  (exists a, (1 <= a <= 253)%nat /\ req = assign_request a).

Definition is_hint (e : event) : bool :=
  match e with
  | PrintLrnHint => true
  | _ => false
  end.

(** Index 0 is the only entry that is [None]. *)
Definition scanned (m : usage) : Prop :=
  m !! 0%nat = Some Unknown /\
  forall j, (1 <= j < length m)%nat -> m !! j = Some Free \/ m !! j = Some Occupied.

(** What every configuration of a run satisfies. *)
Definition run_invariant {Bus} (c : config Bus) : Prop :=
  (1 <= length (usage_map (cfg_state c)))%nat /\
  scanned (usage_map (cfg_state c)) /\
  (cfg_phase c = Learning -> covers (usage_map (cfg_state c))).

(** The number of learn-mode hints in an output. *)
Definition hints (out : list event) : nat := length (List.filter is_hint out).

(** How many hints a run from [c] may still print. *)
Definition hints_left {Bus} (c : config Bus) : nat :=
  match cfg_phase c with
  | Scanning => 1
  | Learning => if reported (cfg_state c) then 0 else 1
  end.

(** * Properties *)

(** ** Frame codec *)

Lemma bytes_eqb_true (a b : bytes) : bytes_eqb a b = true <-> a = b.
Proof. unfold bytes_eqb. apply bool_decide_eq_true. Qed.

Lemma bytes_eqb_false (a b : bytes) : bytes_eqb a b = false <-> a <> b.
Proof. unfold bytes_eqb. apply bool_decide_eq_false. Qed.

Lemma getitem_Ok (l : bytes) (i : nat) (x : Z) :
  getitem l i = Ok x <-> l !! i = Some x.
Proof.
  unfold getitem. destruct (l !! i); split; intros E; inversion E; reflexivity.
Qed.

Lemma getitem_lt (l : bytes) (i : nat) :
  (i < length l)%nat -> exists x, getitem l i = Ok x /\ l !! i = Some x.
Proof.
  intros Hi. destruct (lookup_lt_is_Some_2 l i Hi) as [x Hx].
  exists x. split; [apply getitem_Ok|]; exact Hx.
Qed.

Lemma length_slice {A} (l : list A) (i j : nat) :
  length (slice l i j) = ((j - i) `min` (length l - i))%nat.
Proof. unfold slice. rewrite length_take, length_drop. reflexivity. Qed.

Lemma ESP2Message_parse_cases (data : bytes) :
  (well_framed data /\ ESP2Message_parse data = Ok (mkESP2 (slice data 2 13)))
  \/ (~ well_framed data /\ is_ParseError (ESP2Message_parse data)).
Proof.
  unfold ESP2Message_parse, well_framed.
  destruct (bytes_eqb (slice data 0 2) preamble) eqn:Hpre; simpl.
  2:{ right. apply bytes_eqb_false in Hpre. split; [tauto | eexists; reflexivity]. }
  apply bytes_eqb_true in Hpre.
  destruct (Nat.eqb_spec (length data) 14) as [Hlen|Hlen]; simpl.
  2:{ right. split; [tauto | eexists; reflexivity]. }
  destruct (getitem_lt data 13) as (x & Hget & Hx); [lia|].
  rewrite Hget. simpl.
  destruct (Z.eqb_spec (bsum (slice data 2 13) mod 256) x) as [Hsum|Hsum]; simpl.
  - left. rewrite Hsum, Hx. tauto.
  - right. split; [|eexists; reflexivity].
    intros (_ & _ & Hc). rewrite Hx in Hc. congruence.
Qed.

Lemma ESP2Message_parse_Ok (data : bytes) (m : ESP2Message) :
  ESP2Message_parse data = Ok m <->
  well_framed data /\ m = mkESP2 (slice data 2 13).
Proof.
  destruct (ESP2Message_parse_cases data) as [[Hw E]|[Hw [msg E]]]; rewrite E.
  - split; [intros [= <-]; tauto | intros [_ ->]; reflexivity].
  - split; [discriminate | tauto].
Qed.

Lemma serialize_well_framed (body : bytes) :
  length body = 11%nat ->
  well_framed (ESP2Message_serialize body) /\
  slice (ESP2Message_serialize body) 2 13 = body.
Proof.
  intros Hlen.
  assert (Hbody : slice (ESP2Message_serialize body) 2 13 = body).
  { unfold slice, ESP2Message_serialize, preamble. simpl. rewrite drop_0.
    rewrite take_app_length'; [reflexivity | symmetry; exact Hlen]. }
  split; [|exact Hbody].
  unfold well_framed. rewrite Hbody. split; [reflexivity|]. split.
  - unfold ESP2Message_serialize, preamble. simpl.
    rewrite length_app, Hlen. reflexivity.
  - unfold ESP2Message_serialize, preamble.
    change (13%nat) with (2 + 11)%nat. simpl.
    rewrite lookup_app_r; rewrite Hlen; [reflexivity | lia].
Qed.

(** C5: serializing an 11-byte body gives 14 bytes, and parsing them
    succeeds with exactly that body. *)
Theorem ESP2Message_roundtrip (body : bytes) :
  length body = 11%nat ->
  length (ESP2Message_serialize body) = 14%nat /\
  ESP2Message_parse (ESP2Message_serialize body) = Ok (mkESP2 body).
Proof.
  intros Hlen. destruct (serialize_well_framed body Hlen) as [Hw Hbody].
  split; [apply Hw|].
  apply ESP2Message_parse_Ok. rewrite Hbody. split; [exact Hw | reflexivity].
Qed.

Lemma ESP2Message_roundtrip_witness :
  length [171; 240; 0; 0; 0; 0; 0; 0; 0; 0; 7] = 11%nat /\
  ESP2Message_parse (ESP2Message_serialize [171; 240; 0; 0; 0; 0; 0; 0; 0; 0; 7])
  = Ok (mkESP2 [171; 240; 0; 0; 0; 0; 0; 0; 0; 0; 7]).
Proof.
  split; [reflexivity|].
  apply (ESP2Message_roundtrip [171; 240; 0; 0; 0; 0; 0; 0; 0; 0; 7]). reflexivity.
Defined.

(** C6: [ESP2Message.parse] raises [ParseError] exactly when the input is
    not 14 bytes long, or does not start with the preamble A5 5A, or its
    last byte is not the sum of the 11 body bytes modulo 256.  The parse is
    a function of the input alone: it has no state to change. *)
Theorem ESP2Message_parse_fails_iff (data : bytes) :
  is_ParseError (ESP2Message_parse data) <->
  (length data <> 14%nat \/ take 2 data <> [165; 90] \/
   last data <> Some (bsum (take 11 (drop 2 data)) mod 256)).
Proof.
  assert (Hw : well_framed data <->
    ~ (length data <> 14%nat \/ take 2 data <> [165; 90] \/
       last data <> Some (bsum (take 11 (drop 2 data)) mod 256))).
  { unfold well_framed, slice, preamble. simpl.
    destruct (decide (length data = 14%nat)) as [Hlen|Hlen]; [|tauto].
    rewrite last_lookup, Hlen. simpl.
    destruct (decide (take 2 data = [165; 90])); [|tauto].
    destruct (decide (data !! 13%nat = Some (bsum (take 11 (drop 2 data)) mod 256)));
      tauto. }
  destruct (ESP2Message_parse_cases data) as [[H E]|[H E]].
  - rewrite E. split; [intros [msg Hm]; discriminate | intros Hc; tauto].
  - split; [intros _ | intros _; exact E].
    destruct (decide (length data = 14%nat)); [|tauto].
    destruct (decide (take 2 data = [165; 90])); [|tauto].
    destruct (decide (last data = Some (bsum (take 11 (drop 2 data)) mod 256)));
      [|tauto].
    exfalso. apply H, Hw. tauto.
Qed.

(** *** Single-bit flips *)

Lemma land_pow2_testbit_false (b k : Z) :
  0 <= k -> Z.testbit b k = false -> Z.land b (2 ^ k) = 0.
Proof.
  intros Hk Hb. apply Z.bits_inj'. intros n Hn.
  rewrite Z.land_spec, Z.pow2_bits_eqb, Z.bits_0 by exact Hk.
  destruct (Z.eqb_spec k n) as [->|_].
  - rewrite Hb. reflexivity.
  - apply andb_false_r.
Qed.

Lemma ldiff_pow2_testbit_true (b k : Z) :
  0 <= k -> Z.testbit b k = true -> Z.ldiff (2 ^ k) b = 0.
Proof.
  intros Hk Hb. apply Z.bits_inj'. intros n Hn.
  rewrite Z.ldiff_spec, Z.pow2_bits_eqb, Z.bits_0 by exact Hk.
  destruct (Z.eqb_spec k n) as [->|_].
  - rewrite Hb. reflexivity.
  - reflexivity.
Qed.

(** Flipping bit [k] adds or subtracts [2 ^ k]. *)
Lemma lxor_pow2 (b k : Z) :
  0 <= k ->
  Z.lxor b (2 ^ k) = b + 2 ^ k \/ Z.lxor b (2 ^ k) = b - 2 ^ k.
Proof.
  intros Hk. destruct (Z.testbit b k) eqn:Hb.
  - right. rewrite (Z.sub_nocarry_ldiff b (2 ^ k))
      by (apply ldiff_pow2_testbit_true; assumption).
    apply Z.bits_inj'. intros n Hn.
    rewrite Z.lxor_spec, Z.ldiff_spec, Z.pow2_bits_eqb by exact Hk.
    destruct (Z.eqb_spec k n) as [->|_].
    + rewrite Hb. reflexivity.
    + simpl. rewrite xorb_false_r, andb_true_r. reflexivity.
  - left. symmetry. apply Z.add_nocarry_lxor.
    apply land_pow2_testbit_false; assumption.
Qed.

Lemma flip_delta (b : Z) (k : nat) :
  (k < 8)%nat ->
  exists d, Z.lxor b (Z.shiftl 1 (Z.of_nat k)) = b + d /\ d mod 256 <> 0.
Proof.
  intros Hk. rewrite Z.shiftl_1_l.
  destruct (lxor_pow2 b (Z.of_nat k)) as [E|E]; [lia| |]; rewrite E.
  - exists (2 ^ Z.of_nat k). split; [reflexivity|].
    do 8 (destruct k as [|k]; [vm_compute; discriminate|]). lia.
  - exists (- 2 ^ Z.of_nat k). split; [lia|].
    do 8 (destruct k as [|k]; [vm_compute; discriminate|]). lia.
Qed.

Lemma bsum_alter (f : Z -> Z) (l : bytes) (i : nat) (x : Z) :
  l !! i = Some x -> bsum (alter f i l) = bsum l + (f x - x).
Proof.
  unfold bsum. revert i.
  induction l as [|y l IH]; intros [|i] Hi; simpl in *; try discriminate.
  - inversion Hi; subst. lia.
  - specialize (IH i Hi). unfold alter in IH. lia.
Qed.

Lemma mod_shift_neq (s d : Z) : d mod 256 <> 0 -> (s + d) mod 256 <> s mod 256.
Proof.
  intros Hd E. apply Hd.
  replace d with ((s + d) - s) by lia.
  rewrite Zminus_mod, E, Z.sub_diag. reflexivity.
Qed.

Lemma flip_bit_well_framed (body : bytes) (p k : nat) :
  length body = 11%nat -> (p < 14)%nat -> (k < 8)%nat ->
  ~ well_framed (flip_bit p k (ESP2Message_serialize body)).
Proof.
  intros Hlen Hp Hk (Hpre & _ & Hsum).
  set (f := fun b : Z => Z.lxor b (Z.shiftl 1 (Z.of_nat k))) in *.
  assert (Hf : forall b, exists d, f b = b + d /\ d mod 256 <> 0)
    by (intros b; apply flip_delta; exact Hk).
  unfold flip_bit, ESP2Message_serialize, preamble in *. fold f in Hpre, Hsum.
  destruct p as [|[|p]].
  - (* first byte of the preamble *)
    destruct (Hf 165) as (d & E & Hd). simpl in Hpre.
    inversion Hpre as [E']. rewrite E in E'.
    apply Hd. replace d with 0 by lia. reflexivity.
  - (* second byte of the preamble *)
    destruct (Hf 90) as (d & E & Hd). simpl in Hpre.
    inversion Hpre as [E']. rewrite E in E'.
    apply Hd. replace d with 0 by lia. reflexivity.
  - (* body or checksum *)
    clear Hpre.
    assert (Hsum' : alter f p (body ++ [bsum body mod 256]) !! 11%nat =
      Some (bsum (take 11 (alter f p (body ++ [bsum body mod 256]))) mod 256))
      by exact Hsum.
    clear Hsum. revert Hsum'.
    destruct (decide (p < 11)%nat) as [Hb|Hb].
    + (* a body byte: the sum moves, the checksum does not *)
      destruct (lookup_lt_is_Some_2 body p) as [x Hx]; [lia|].
      rewrite alter_app_l by lia.
      rewrite take_app_length' by (rewrite length_alter; lia).
      rewrite lookup_app_r by (rewrite length_alter; lia).
      rewrite length_alter, Hlen. simpl.
      rewrite (bsum_alter f body p x Hx).
      destruct (Hf x) as (d & Efx & Hd).
      replace (f x - x) with d by lia.
      intros [= E]. symmetry in E. revert E. apply mod_shift_neq. exact Hd.
    + (* the checksum byte *)
      assert (p = 11%nat) as -> by lia.
      rewrite alter_app_r_alt by lia. rewrite Hlen. simpl.
      rewrite take_app_length' by lia.
      rewrite lookup_app_r by lia. rewrite Hlen. simpl.
      destruct (Hf (bsum body mod 256)) as (d & Efx & Hd).
      rewrite Efx. intros [= E]. apply Hd. replace d with 0 by lia. reflexivity.
Qed.

(** C7: flipping any single bit of the 14-byte wire form of an 11-byte
    body makes [ESP2Message.parse] raise [ParseError]; no flip keeps both
    the preamble and the checksum relation, so there is no exception. *)
Theorem checksum_sensitivity (body : bytes) (p k : nat) :
  length body = 11%nat -> (p < 14)%nat -> (k < 8)%nat ->
  is_ParseError (ESP2Message_parse (flip_bit p k (ESP2Message_serialize body))).
Proof.
  intros Hlen Hp Hk.
  destruct (ESP2Message_parse_cases (flip_bit p k (ESP2Message_serialize body)))
    as [[Hw _]|[_ E]]; [|exact E].
  exfalso. revert Hw. apply flip_bit_well_framed; assumption.
Qed.

Lemma checksum_sensitivity_witness :
  is_ParseError (ESP2Message_parse
    (flip_bit 5 3 (ESP2Message_serialize [171; 240; 0; 0; 0; 0; 0; 0; 0; 0; 7]))).
Proof.
  apply (checksum_sensitivity [171; 240; 0; 0; 0; 0; 0; 0; 0; 0; 7] 5 3);
    [reflexivity | lia | lia].
Defined.

(** ** Layered parses *)

Lemma is_ParseError_returns {A} (r : result A) :
  is_ParseError r -> returns_or_ParseError r.
Proof. intros [msg ->]. simpl. eexists; reflexivity. Qed.

Lemma well_framed_body_length (data : bytes) :
  well_framed data -> length (slice data 2 13) = 11%nat.
Proof. intros (_ & Hlen & _). rewrite length_slice, Hlen. reflexivity. Qed.

Lemma EltakoMessage_parse_cases (data : bytes) :
  (exists m, EltakoMessage_parse data = Ok m /\ length (payload m) = 8%nat)
  \/ is_ParseError (EltakoMessage_parse data).
Proof.
  unfold EltakoMessage_parse.
  destruct (ESP2Message_parse_cases data) as [[Hw ->]|[_ [msg ->]]]; simpl.
  2:{ right. eexists; reflexivity. }
  pose proof (well_framed_body_length data Hw) as Hlen.
  destruct (getitem_lt (slice data 2 13) 0) as (code & -> & _); [lia|].
  destruct (getitem_lt (slice data 2 13) 1) as (o & -> & _); [lia|].
  destruct (getitem_lt (slice data 2 13) 10) as (a & Ha & _); [lia|].
  simpl. destruct (direction_of code) as [d|].
  - rewrite Ha. simpl. left. eexists. split; [reflexivity|]. simpl.
    rewrite length_slice, Hlen. reflexivity.
  - right. eexists; reflexivity.
Qed.

Lemma EltakoDiscoveryReply_parse_total (data : bytes) :
  returns_or_ParseError (EltakoDiscoveryReply_parse data).
Proof.
  unfold EltakoDiscoveryReply_parse.
  destruct (EltakoMessage_parse_cases data) as [(m & -> & Hlen)|[msg ->]];
    simpl; [|eexists; reflexivity].
  destruct (_ || _); simpl; [eexists; reflexivity|].
  destruct (negb _); simpl; [eexists; reflexivity|].
  destruct (getitem_lt (payload m) 0) as (a & -> & _); [lia|].
  destruct (getitem_lt (payload m) 1) as (s & -> & _); [lia|].
  exact I.
Qed.

Lemma EltakoTimeout_parse_total (data : bytes) :
  returns_or_ParseError (EltakoTimeout_parse data).
Proof.
  unfold EltakoTimeout_parse.
  destruct (EltakoMessage_parse_cases data) as [(m & -> & Hlen)|[msg ->]];
    simpl; [|eexists; reflexivity].
  destruct (_ || _); simpl; [eexists; reflexivity | exact I].
Qed.

(** C10: on every input, of any length, each of the four parses returns a
    value or raises [ParseError]: no index is read out of range and no
    other exception escapes; a body returned by [ESP2Message.parse] has
    exactly 11 bytes. *)
Theorem parse_total (data : bytes) :
  match ESP2Message_parse data with
  | Ok m => length (esp2_body m) = 11%nat
  | Raise e => exists msg, e = ParseError msg
  end /\
  returns_or_ParseError (EltakoMessage_parse data) /\
  returns_or_ParseError (EltakoDiscoveryReply_parse data) /\
  returns_or_ParseError (EltakoTimeout_parse data).
Proof.
  split; [|split; [|split]].
  - destruct (ESP2Message_parse_cases data) as [[Hw ->]|[_ [msg ->]]].
    + simpl. apply well_framed_body_length, Hw.
    + eexists; reflexivity.
  - destruct (EltakoMessage_parse_cases data) as [(m & -> & _)|E].
    + exact I.
    + apply is_ParseError_returns, E.
  - apply EltakoDiscoveryReply_parse_total.
  - apply EltakoTimeout_parse_total.
Qed.

Lemma EltakoDiscoveryReply_parse_Ok_org (data : bytes) :
  is_Ok (EltakoDiscoveryReply_parse data) ->
  exists m, EltakoMessage_parse data = Ok m /\ org m = 240 /\
            is_request m = false /\ address m = 0.
Proof.
  unfold EltakoDiscoveryReply_parse. intros [r E].
  destruct (EltakoMessage_parse data) as [m|e]; simpl in E; [|discriminate].
  exists m. split; [reflexivity|].
  unfold discovery_org, discovery_is_request, discovery_address in E.
  destruct (Z.eqb_spec (org m) 240); simpl in E; [|discriminate].
  destruct (is_request m); simpl in E; [discriminate|].
  destruct (Z.eqb_spec (address m) 0); simpl in E; [|discriminate].
  auto.
Qed.

Lemma EltakoTimeout_parse_Ok_org (data : bytes) :
  is_Ok (EltakoTimeout_parse data) ->
  exists m, EltakoMessage_parse data = Ok m /\ org m = 248 /\
            is_request m = false /\ address m = 0.
Proof.
  unfold EltakoTimeout_parse. intros [r E].
  destruct (EltakoMessage_parse data) as [m|e]; simpl in E; [|discriminate].
  exists m. split; [reflexivity|].
  unfold timeout_org, timeout_is_request, timeout_address in E.
  destruct (Z.eqb_spec (org m) 248); simpl in E; [|discriminate].
  destruct (is_request m); simpl in E; [discriminate|].
  destruct (bytes_eqb _ _); simpl in E; [|discriminate].
  destruct (Z.eqb_spec (address m) 0); simpl in E; [|discriminate].
  auto.
Qed.

Lemma specialized_parses_exclusive (data : bytes) :
  ~ (is_Ok (EltakoDiscoveryReply_parse data) /\ is_Ok (EltakoTimeout_parse data)).
Proof.
  intros [Hd Ht].
  apply EltakoDiscoveryReply_parse_Ok_org in Hd as (m & Em & Ho & _).
  apply EltakoTimeout_parse_Ok_org in Ht as (m' & Em' & Ho' & _).
  rewrite Em in Em'. inversion Em'; subst. lia.
Qed.

Lemma not_Ok_ParseError {A} (r : result A) :
  returns_or_ParseError r -> ~ is_Ok r -> is_ParseError r.
Proof.
  destruct r as [a|e]; simpl.
  - intros _ H. exfalso. apply H. eexists; reflexivity.
  - intros [msg ->] _. eexists; reflexivity.
Qed.

(** C8: a frame that [EltakoMessage.parse] accepts, and whose class code,
    direction or address differs from the constants of a specialized type,
    is rejected with [ParseError] by that type's parse; no frame is accepted
    by both [EltakoDiscoveryReply.parse] and [EltakoTimeout.parse]. *)
Theorem specialized_rejection (data : bytes) (m : EltakoMessage) :
  EltakoMessage_parse data = Ok m ->
  (org m <> 240 \/ is_request m <> false \/ address m <> 0 ->
     is_ParseError (EltakoDiscoveryReply_parse data)) /\
  (org m <> 248 \/ is_request m <> false \/ address m <> 0 ->
     is_ParseError (EltakoTimeout_parse data)) /\
  ~ (is_Ok (EltakoDiscoveryReply_parse data) /\ is_Ok (EltakoTimeout_parse data)).
Proof.
  intros Em. split; [|split].
  - intros Hne. apply not_Ok_ParseError; [apply EltakoDiscoveryReply_parse_total|].
    intros Hok. apply EltakoDiscoveryReply_parse_Ok_org in Hok as (m' & Em' & H).
    rewrite Em in Em'. inversion Em'; subst. tauto.
  - intros Hne. apply not_Ok_ParseError; [apply EltakoTimeout_parse_total|].
    intros Hok. apply EltakoTimeout_parse_Ok_org in Hok as (m' & Em' & H).
    rewrite Em in Em'. inversion Em'; subst. tauto.
  - apply specialized_parses_exclusive.
Qed.

Lemma specialized_rejection_witness :
  is_ParseError (EltakoDiscoveryReply_parse timeout_frame) /\
  is_ParseError (EltakoTimeout_parse (reply_frame 3 2)).
Proof.
  split.
  - apply (specialized_rejection timeout_frame (mkEltako 248 0 zeros8 false));
      [reflexivity|]. left. discriminate.
  - apply (specialized_rejection (reply_frame 3 2)
             (mkEltako 240 0 [3; 2; 127; 8; 0; 0; 0; 1] false));
      [reflexivity|]. left. discriminate.
Defined.

(** ** Exchange *)

(** C4: when the response parses as the expected type, [exchange] returns
    the parsed value; when it does not but parses as an [EltakoTimeout],
    [exchange] raises [TimeoutError]; when it parses as neither, [exchange]
    raises the [ParseError] of the first attempt. *)
Theorem exchange_disambiguation `{Transport Bus} {A} (context context' : Bus)
    (req : EltakoMessage) (coap_request coap_response : bytes)
    (responsetype_parse : bytes -> result A) :
  EltakoMessage_serialize req = Ok coap_request ->
  request context coap_request = (Ok coap_response, context') ->
  (forall a, responsetype_parse coap_response = Ok a ->
     exchange context req responsetype_parse = (Ok a, context')) /\
  (forall msg, responsetype_parse coap_response = Raise (ParseError msg) ->
     is_Ok (EltakoTimeout_parse coap_response) ->
     exchange context req responsetype_parse = (Raise TimeoutError, context')) /\
  (forall msg, responsetype_parse coap_response = Raise (ParseError msg) ->
     ~ is_Ok (EltakoTimeout_parse coap_response) ->
     exchange context req responsetype_parse = (Raise (ParseError msg), context')).
Proof.
  intros Hser Hreq. unfold exchange. rewrite Hser, Hreq.
  split; [|split].
  - intros a ->. reflexivity.
  - intros msg -> [t ->]. reflexivity.
  - intros msg -> Hno.
    pose proof (EltakoTimeout_parse_total coap_response) as Htot.
    destruct (EltakoTimeout_parse coap_response) as [t|e]; simpl in Htot.
    + exfalso. apply Hno. eexists; reflexivity.
    + destruct Htot as [msg' ->]. reflexivity.
Qed.

Lemma exchange_disambiguation_witness :
  exchange [Ok timeout_frame] (discovery_request 1) EltakoDiscoveryReply_parse
    = (Raise TimeoutError, []) /\
  exchange [Ok [1; 2; 3]] (discovery_request 1) EltakoDiscoveryReply_parse
    = (Raise (ParseError "No preamble found"), []) /\
  exchange [Ok (reply_frame 1 2)] (discovery_request 1) EltakoDiscoveryReply_parse
    = (Ok (mkReply 1 2 [0; 0; 0; 1]), []).
Proof.
  split; [|split].
  - eapply (exchange_disambiguation [Ok timeout_frame] [] (discovery_request 1)
              _ timeout_frame EltakoDiscoveryReply_parse);
      [reflexivity | reflexivity | reflexivity | eexists; reflexivity].
  - eapply (exchange_disambiguation [Ok [1; 2; 3]] [] (discovery_request 1)
              _ [1; 2; 3] EltakoDiscoveryReply_parse);
      [reflexivity | reflexivity | reflexivity | intros [t Ht]; discriminate].
  - eapply (exchange_disambiguation [Ok (reply_frame 1 2)] [] (discovery_request 1)
              _ (reply_frame 1 2) EltakoDiscoveryReply_parse);
      [reflexivity | reflexivity | reflexivity].
Defined.

(** ** Phase A: the scan *)

Lemma advanced_app_replicate (m : usage) (k : nat) (x : option bool) :
  advanced m (m ++ replicate k x) k x.
Proof.
  unfold advanced. split; [|split].
  - rewrite length_app, length_replicate. reflexivity.
  - intros j Hj. apply lookup_app_l. exact Hj.
  - intros j Hj. rewrite lookup_app_r by lia.
    apply lookup_replicate_2. lia.
Qed.

Lemma covers_length (m : usage) : covers m <-> (255 <= length m)%nat.
Proof.
  unfold covers. split.
  - intros Hc. specialize (Hc 254%nat ltac:(lia)).
    apply lookup_lt_is_Some_1 in Hc. lia.
  - intros Hlen i Hi. apply lookup_lt_is_Some_2. lia.
Qed.

(** C1: the scan starts at address 1.  A pass of the loop with the map
    not yet covering 1..254 probes address [n = len(usage_map)]: on
    [TimeoutError] the map gains one entry [Free] at [n]; on a reply whose
    [reported_address] is [n] it gains [reported_size] entries [Occupied]
    from [n] on; on a reply with another [reported_address] the scan dies
    by its assertion.  The loop is left exactly when the map covers
    1..254. *)
Theorem scan_step_spec `{Transport Bus} (context context' : Bus)
    (m : usage) (r : result EltakoDiscoveryReply) :
  exchange context (discovery_request (length m)) EltakoDiscoveryReply_parse
    = (r, context') ->
  length (usage_map (cfg_state (enumerate_init context))) = 1%nat /\
  ((length m < 255)%nat ->
   match r with
   | Raise TimeoutError =>
       exists m' out, scan_step context m = Continue m' context' out /\
                      advanced m m' 1 Free
   | Raise e => exists out, scan_step context m = Abort e out
   | Ok response =>
       if decide (reported_address response = Z.of_nat (length m)) then
         exists m' out, scan_step context m = Continue m' context' out /\
           advanced m m' (Z.to_nat (reported_size response)) Occupied
       else exists out, scan_step context m = Abort AssertionError out
   end) /\
  ((exists out, scan_step context m = Break m context out)
     <-> covers m).
Proof.
  intros Hex. split; [reflexivity|]. split.
  - intros Hlt. unfold scan_step.
    apply Nat.ltb_lt in Hlt as ->. rewrite Hex.
    destruct r as [response|e].
    + destruct (Z.eqb_spec (Z.of_nat (length m)) (reported_address response));
        destruct (decide _); try congruence; simpl.
      * eexists _, _. split; [reflexivity | apply advanced_app_replicate].
      * eexists. reflexivity.
    + destruct e; try (eexists; reflexivity).
      eexists _, _. split; [reflexivity | apply (advanced_app_replicate _ 1)].
  - rewrite covers_length. unfold scan_step.
    destruct (Nat.ltb_spec (length m) 255) as [Hlt|Hge].
    + split; [|lia]. intros [out E]. rewrite Hex in E.
      destruct r as [response|e].
      * destruct (negb _); discriminate.
      * destruct e; discriminate.
    + split; [lia|]. intros _. eexists. reflexivity.
Qed.

Lemma scan_step_spec_witness :
  exists m' out,
    scan_step [Ok timeout_frame] [Unknown] = Continue m' [] out /\
    advanced [Unknown] m' 1 Free.
Proof.
  destruct (scan_step_spec [Ok timeout_frame] [] [Unknown] (Raise TimeoutError))
    as (_ & Hscan & _); [reflexivity|].
  apply Hscan. simpl. lia.
Defined.

(** ** Phase B: choosing an address *)

Lemma any_false (l : usage) :
  any l = false <-> forall k, l !! k <> Some Occupied.
Proof.
  unfold any. induction l as [|x l IH]; simpl.
  - split; [intros _ k; discriminate | reflexivity].
  - rewrite orb_false_iff, IH. split.
    + intros [Hx Hl] [|k]; simpl; [|apply Hl].
      intros [= ->]. discriminate.
    + intros Hall. split; [|intros k; apply (Hall (S k))].
      specialize (Hall 0%nat). simpl in Hall.
      destruct x as [[|]|]; [congruence | reflexivity | reflexivity].
Qed.

Lemma any_slice (m : usage) (i size : nat) :
  any (slice m i (i + size)) = false <-> available m i size.
Proof.
  rewrite any_false. unfold slice, available.
  replace (i + size - i)%nat with size by lia. split.
  - intros Hall j Hj. specialize (Hall (j - i)%nat).
    rewrite lookup_take_lt, lookup_drop in Hall by lia.
    replace (i + (j - i))%nat with j in Hall by lia. exact Hall.
  - intros Hav k. destruct (decide (k < size)%nat) as [Hk|Hk].
    + rewrite lookup_take_lt, lookup_drop by lia. apply Hav. lia.
    + rewrite lookup_take_ge by lia. discriminate.
Qed.

Lemma find_seq_first (P : nat -> bool) (start len : nat) :
  match List.find P (seq start len) with
  | Some i => (start <= i < start + len)%nat /\ P i = true /\
              forall i', (start <= i' < i)%nat -> P i' = false
  | None => forall i, (start <= i < start + len)%nat -> P i = false
  end.
Proof.
  revert start. induction len as [|len IH]; intros start; simpl.
  - intros i Hi. lia.
  - destruct (P start) eqn:Hs.
    + split; [lia|]. split; [exact Hs|]. intros i' Hi'. lia.
    + specialize (IH (S start)). destruct (List.find P (seq (S start) len)) as [i|].
      * destruct IH as (Hr & Hi & Hmin). split; [lia|]. split; [exact Hi|].
        intros i' Hi'. destruct (decide (i' = start)) as [->|Hne];
          [exact Hs | apply Hmin; lia].
      * intros i Hi. destruct (decide (i = start)) as [->|Hne];
          [exact Hs | apply IH; lia].
Qed.

Lemma find_slot_first (m : usage) (size : nat) :
  match find_slot m size with
  | Some i =>
      (1 <= i)%nat /\ (i + size < 254)%nat /\ available m i size /\
      forall i', (1 <= i' < i)%nat -> ~ available m i' size
  | None =>
      forall i, (1 <= i)%nat -> (i + size < 254)%nat -> ~ available m i size
  end.
Proof.
  unfold find_slot.
  pose proof (find_seq_first
    (fun i => negb (any (slice m i (i + size)))) 1 (253 - size)) as Hf.
  destruct (List.find _ _) as [i|].
  - destruct Hf as (Hr & Hi & Hmin).
    split; [lia|]. split; [lia|]. split.
    + apply any_slice. apply negb_true_iff. exact Hi.
    + intros i' Hi' Hav. apply any_slice in Hav.
      specialize (Hmin i' ltac:(lia)). rewrite Hav in Hmin. discriminate.
  - intros i H1 H2 Hav. apply any_slice in Hav.
    specialize (Hf i ltac:(lia)). rewrite Hav in Hf. discriminate.
Qed.

Lemma lrn_step_out `{Transport Bus} (context context1 : Bus) (st : lrn_state)
    (response : EltakoDiscoveryReply) (i : nat) :
  exchange context (discovery_request 0) EltakoDiscoveryReply_parse
    = (Ok response, context1) ->
  find_slot (usage_map st) (Z.to_nat (reported_size response)) = Some i ->
  exists tail,
    step_out (lrn_step context st)
    = [Sent (discovery_request 0);
       PrintLrnAvailable (model response) (reported_size response);
       Sent (assign_request i)] ++ tail /\
    (tail = [] \/ tail = [PrintDirty] \/ tail = [PrintAssigned i]).
Proof.
  intros Hex Hf. unfold lrn_step. rewrite Hex, Hf.
  destruct (exchange context1 _ _) as [[response2|e] context2];
    [destruct (_ =? 0); [|destruct (negb _)]|];
    simpl; eexists; (split; [reflexivity|]); auto.
Qed.

(** C2: when the learn-mode probe is answered by a device of size
    [reported_size], the enumerator offers it the lowest address [i] with
    [1 <= i < 254 - reported_size] such that no address of
    [i, i + reported_size) is marked [Occupied] ([Free] and [Unknown]
    entries, and addresses past the end of the map, count as available);
    when there is no such address the run dies with the exception
    "No suitable free space in usage map". *)
Theorem lrn_address_selection `{Transport Bus} (context context1 : Bus)
    (st : lrn_state) (response : EltakoDiscoveryReply) :
  exchange context (discovery_request 0) EltakoDiscoveryReply_parse
    = (Ok response, context1) ->
  let size := Z.to_nat (reported_size response) in
  match find_slot (usage_map st) size with
  | Some i =>
      ((1 <= i)%nat /\ (i + size < 254)%nat /\ available (usage_map st) i size /\
       forall i', (1 <= i' < i)%nat -> ~ available (usage_map st) i' size) /\
      Sent (assign_request i) ∈ step_out (lrn_step context st) /\
      forall i', Sent (assign_request i') ∈ step_out (lrn_step context st) -> i' = i
  | None =>
      (forall i, (1 <= i)%nat -> (i + size < 254)%nat ->
                 ~ available (usage_map st) i size) /\
      exists out, lrn_step context st =
                  Abort (Exception "No suitable free space in usage map") out
  end.
Proof.
  intros Hex size. pose proof (find_slot_first (usage_map st) size) as Hf.
  destruct (find_slot (usage_map st) size) as [i|] eqn:Hslot.
  - split; [exact Hf|].
    destruct (lrn_step_out context context1 st response i Hex Hslot)
      as (tail & -> & Htail).
    split.
    + do 2 apply list_elem_of_further. apply list_elem_of_here.
    + intros i' Hin.
      apply elem_of_cons in Hin as [Hin|Hin]; [discriminate|].
      apply elem_of_cons in Hin as [Hin|Hin]; [discriminate|].
      apply elem_of_cons in Hin as [Hin|Hin].
      * unfold assign_request in Hin. inversion Hin. lia.
      * exfalso. destruct Htail as [-> | [-> | ->]].
        -- inversion Hin.
        -- apply list_elem_of_singleton in Hin. discriminate.
        -- apply list_elem_of_singleton in Hin. discriminate.
  - split; [exact Hf|]. unfold lrn_step. rewrite Hex. fold size. rewrite Hslot.
    eexists. reflexivity.
Qed.

Lemma lrn_address_selection_witness :
  Sent (assign_request 4)
    ∈ step_out (lrn_step [Ok (reply_frame 0 1); Ok (reply_frame 4 1)]
                  (mkLrn [Unknown; Occupied; Occupied; Occupied; Free; Free] false)).
Proof.
  pose proof (lrn_address_selection
    [Ok (reply_frame 0 1); Ok (reply_frame 4 1)] [Ok (reply_frame 4 1)]
    (mkLrn [Unknown; Occupied; Occupied; Occupied; Free; Free] false)
    (mkReply 0 1 [0; 0; 0; 1]) eq_refl) as Hsel.
  cbv zeta in Hsel.
  change (find_slot _ _) with (Some 4%nat) in Hsel.
  exact (proj1 (proj2 Hsel)).
Defined.

(** ** Phase B: the reservation *)

Lemma slice_assign_length {A} (l : list A) (i size : nat) (v : list A) :
  length v = size ->
  (length l <= length (slice_assign l i (i + size) v))%nat.
Proof.
  intros Hv. unfold slice_assign.
  rewrite !length_app, length_take, length_drop, Hv. lia.
Qed.

Lemma slice_assign_lookup_before {A} (l : list A) (i j k : nat) (v : list A) :
  (k < i)%nat -> (k < length l)%nat -> slice_assign l i j v !! k = l !! k.
Proof.
  intros Hk Hl. unfold slice_assign.
  rewrite lookup_app_l by (rewrite length_take; lia).
  apply lookup_take_lt. exact Hk.
Qed.

Lemma slice_assign_lookup_in {A} (l : list A) (i size k : nat) (x : A) :
  (i <= length l)%nat -> (i <= k < i + size)%nat ->
  slice_assign l i (i + size) (replicate size x) !! k = Some x.
Proof.
  intros Hi Hk. unfold slice_assign.
  rewrite lookup_app_r by (rewrite length_take; lia).
  rewrite length_take_le by exact Hi.
  rewrite lookup_app_l by (rewrite length_replicate; lia).
  apply lookup_replicate_2. lia.
Qed.

Lemma slice_assign_lookup_after {A} (l : list A) (i size k : nat) (v : list A) :
  (i <= length l)%nat -> length v = size -> (i + size <= k)%nat ->
  slice_assign l i (i + size) v !! k = l !! k.
Proof.
  intros Hi Hv Hk. unfold slice_assign.
  rewrite lookup_app_r by (rewrite length_take; lia).
  rewrite length_take_le by exact Hi.
  rewrite lookup_app_r by (rewrite Hv; lia).
  rewrite lookup_drop, Hv. f_equal. lia.
Qed.

Lemma slice_assign_past_end {A} (l : list A) (i j : nat) (v : list A) :
  (length l <= i)%nat -> (i <= j)%nat -> slice_assign l i j v = l ++ v.
Proof.
  intros Hi Hj. unfold slice_assign.
  rewrite take_ge by exact Hi. rewrite drop_ge by lia.
  rewrite app_nil_r. reflexivity.
Qed.

Lemma available_past_end (m : usage) (i size : nat) :
  (length m <= i)%nat -> available m i size.
Proof.
  intros Hi j Hj. rewrite lookup_ge_None_2 by lia. discriminate.
Qed.

(** The slot found starts inside the map or right at its end. *)
Lemma find_slot_le_length (m : usage) (size i : nat) :
  (1 <= length m)%nat -> find_slot m size = Some i -> (i <= length m)%nat.
Proof.
  intros Hlen Hslot. pose proof (find_slot_first m size) as Hf.
  rewrite Hslot in Hf. destruct Hf as (H1 & _ & _ & Hmin).
  destruct (decide (i <= length m)%nat) as [Hle|Hgt]; [exact Hle|].
  exfalso. apply (Hmin (i - 1)%nat); [lia|].
  apply available_past_end. lia.
Qed.

Lemma lrn_step_probe_first `{Transport Bus} (context : Bus) (st : lrn_state) :
  exists rest, step_out (lrn_step context st) = Sent (discovery_request 0) :: rest.
Proof.
  unfold lrn_step.
  destruct (exchange context _ _) as [[response|e] context1].
  - destruct (find_slot _ _) as [i|]; [|eexists; reflexivity].
    destruct (exchange context1 _ _) as [[response2|e] context2];
      [destruct (_ =? 0); [|destruct (negb _)]|]; eexists; reflexivity.
  - destruct e; try (eexists; reflexivity).
    destruct (reported st); eexists; reflexivity.
Qed.

Lemma enumerate_steps_S `{Transport Bus} (fuel : nat) (c : config Bus) :
  enumerate_steps (S fuel) c =
  match enumerate_step c with
  | (Ok c', out) =>
      (fst (enumerate_steps fuel c'), out ++ snd (enumerate_steps fuel c'))
  | (Raise e, out) => (Raise e, out)
  end.
Proof.
  simpl. destruct (enumerate_step c) as [[c'|e] out]; [|reflexivity].
  destruct (enumerate_steps fuel c'). reflexivity.
Qed.

(** C3: when the reply to the assignment of [i] reports address 0, the
    pass ends with every address of [i, i + reported_size) marked
    [Occupied], prints no success message, and the loop goes on: the next
    pass starts by sending the learn-mode probe to address 0. *)
Theorem ambiguous_assignment_retry `{Transport Bus} (context context1 context2 : Bus)
    (st : lrn_state) (response response2 : EltakoDiscoveryReply) (i : nat) :
  (1 <= length (usage_map st))%nat ->
  exchange context (discovery_request 0) EltakoDiscoveryReply_parse
    = (Ok response, context1) ->
  find_slot (usage_map st) (Z.to_nat (reported_size response)) = Some i ->
  exchange context1 (assign_request i) EltakoDiscoveryReply_parse
    = (Ok response2, context2) ->
  reported_address response2 = 0 ->
  exists st' out,
    lrn_step context st = Continue st' context2 out /\
    (forall j, (i <= j < i + Z.to_nat (reported_size response))%nat ->
               usage_map st' !! j = Some Occupied) /\
    (forall a, PrintAssigned a ∉ out) /\
    (forall fuel,
       enumerate_steps (S fuel) (mkConfig Learning st context)
       = (fst (enumerate_steps fuel (mkConfig Learning st' context2)),
          out ++ snd (enumerate_steps fuel (mkConfig Learning st' context2)))) /\
    exists rest,
      snd (enumerate_step (mkConfig Learning st' context2))
      = Sent (discovery_request 0) :: rest.
Proof.
  intros Hlen Hex Hslot Hex2 Hzero.
  assert (Hstep : lrn_step context st =
    Continue
      (mkLrn (slice_assign (usage_map st) i (i + Z.to_nat (reported_size response))
                (replicate (Z.to_nat (reported_size response)) Occupied))
             (reported st))
      context2
      [Sent (discovery_request 0);
       PrintLrnAvailable (model response) (reported_size response);
       Sent (assign_request i); PrintDirty]).
  { unfold lrn_step. rewrite Hex, Hslot, Hex2, Hzero. reflexivity. }
  eexists _, _. split; [exact Hstep|]. split; [|split; [|split]].
  - intros j Hj. simpl. apply slice_assign_lookup_in; [|exact Hj].
    eapply find_slot_le_length; eassumption.
  - intros a Hin. repeat (apply elem_of_cons in Hin as [Hin|Hin]; [discriminate|]).
    inversion Hin.
  - intros fuel. rewrite enumerate_steps_S. unfold enumerate_step.
    cbn [cfg_phase cfg_state cfg_context]. rewrite Hstep. reflexivity.
  - unfold enumerate_step. cbn [cfg_phase cfg_state cfg_context].
    match goal with |- context [lrn_step ?c ?s] =>
      destruct (lrn_step_probe_first c s) as [rest Hrest];
      destruct (lrn_step c s) end; simpl in *; eexists; exact Hrest.
Qed.

Lemma ambiguous_assignment_retry_witness :
  exists st' out,
    lrn_step [Ok (reply_frame 0 2); Ok (reply_frame 0 2)]
      (mkLrn [Unknown; Occupied; Free; Free] false) = Continue st' [] out /\
    usage_map st' !! 2%nat = Some Occupied /\ usage_map st' !! 3%nat = Some Occupied.
Proof.
  destruct (ambiguous_assignment_retry
    [Ok (reply_frame 0 2); Ok (reply_frame 0 2)] [Ok (reply_frame 0 2)] []
    (mkLrn [Unknown; Occupied; Free; Free] false)
    (mkReply 0 2 [0; 0; 0; 1]) (mkReply 0 2 [0; 0; 0; 1]) 2)
    as (st' & out & Hstep & Hocc & _);
    [simpl; lia | reflexivity | reflexivity | reflexivity | reflexivity |].
  exists st', out. split; [exact Hstep|].
  split; apply Hocc; simpl; lia.
Defined.

(** ** The usage map only grows *)

Lemma entry_le_refl (x : option bool) : entry_le x x.
Proof. destruct x as [[|]|]; simpl; auto. Qed.

Lemma entry_le_Occupied (x : option bool) : entry_le x Occupied.
Proof. destruct x as [[|]|]; simpl; auto. Qed.

Lemma entry_le_trans (x y z : option bool) :
  entry_le x y -> entry_le y z -> entry_le x z.
Proof.
  destruct x as [[|]|]; simpl; [intros -> | intros [->| ->] | ]; simpl; auto.
Qed.

Lemma usage_le_refl (m : usage) : usage_le m m.
Proof.
  split; [lia|]. intros j x Hj. exists x. split; [exact Hj | apply entry_le_refl].
Qed.

Lemma usage_le_trans (m1 m2 m3 : usage) :
  usage_le m1 m2 -> usage_le m2 m3 -> usage_le m1 m3.
Proof.
  intros [Hl1 H1] [Hl2 H2]. split; [lia|].
  intros j x Hj. destruct (H1 j x Hj) as (y & Hy & Hxy).
  destruct (H2 j y Hy) as (z & Hz & Hyz).
  exists z. split; [exact Hz | eapply entry_le_trans; eassumption].
Qed.

Lemma usage_le_app (m v : usage) : usage_le m (m ++ v).
Proof.
  split; [rewrite length_app; lia|].
  intros j x Hj. exists x. split; [|apply entry_le_refl].
  apply lookup_app_l_Some. exact Hj.
Qed.

Lemma usage_le_slice_assign (m : usage) (i size : nat) :
  usage_le m (slice_assign m i (i + size) (replicate size Occupied)).
Proof.
  destruct (decide (length m <= i)%nat) as [Hpast|Hin].
  { rewrite slice_assign_past_end by lia. apply usage_le_app. }
  split; [apply slice_assign_length, length_replicate|].
  intros j x Hj. pose proof (lookup_lt_Some _ _ _ Hj) as Hlt.
  destruct (decide (j < i)%nat) as [Hb|Hb].
  - exists x. split; [|apply entry_le_refl].
    rewrite slice_assign_lookup_before by lia. exact Hj.
  - destruct (decide (j < i + size)%nat) as [Hr|Hr].
    + exists Occupied. split; [|apply entry_le_Occupied].
      apply slice_assign_lookup_in; lia.
    + exists x. split; [|apply entry_le_refl].
      rewrite slice_assign_lookup_after by (rewrite ?length_replicate; lia).
      exact Hj.
Qed.

Lemma scan_step_usage_le `{Transport Bus} (context : Bus) (m : usage) :
  match scan_step context m with
  | Continue m' _ _ | Break m' _ _ => usage_le m m'
  | Abort _ _ => True
  end.
Proof.
  unfold scan_step. destruct (_ <? _)%nat; [|apply usage_le_refl].
  destruct (exchange context _ _) as [[response|e] context'].
  - destruct (negb _); [exact I | apply usage_le_app].
  - destruct e; try exact I. apply usage_le_app.
Qed.

Lemma lrn_step_usage_le `{Transport Bus} (context : Bus) (st : lrn_state) :
  match lrn_step context st with
  | Continue st' _ _ | Break st' _ _ => usage_le (usage_map st) (usage_map st')
  | Abort _ _ => True
  end.
Proof.
  unfold lrn_step.
  destruct (exchange context _ _) as [[response|e] context1].
  - destruct (find_slot _ _) as [i|]; [|exact I].
    destruct (exchange context1 _ _) as [[response2|e] context2]; [|exact I].
    destruct (_ =? 0); [|destruct (negb _)]; simpl;
      try exact I; apply usage_le_slice_assign.
  - destruct e; try exact I.
    destruct (reported st); simpl; apply usage_le_refl.
Qed.

Lemma enumerate_step_usage_le `{Transport Bus} (c c' : config Bus) (out : list event) :
  enumerate_step c = (Ok c', out) ->
  usage_le (usage_map (cfg_state c)) (usage_map (cfg_state c')).
Proof.
  unfold enumerate_step. destruct (cfg_phase c).
  - pose proof (scan_step_usage_le (cfg_context c) (usage_map (cfg_state c))) as Hs.
    destruct (scan_step _ _); intros [= <- _]; try exact Hs.
  - pose proof (lrn_step_usage_le (cfg_context c) (cfg_state c)) as Hs.
    destruct (lrn_step _ _); intros [= <- _]; try exact Hs.
Qed.

(** C9: over any number of passes of the enumerator, through the scan
    and through the assignment loop, the usage map does not get shorter,
    an entry marked [Occupied] stays [Occupied], and an entry marked
    [Free] stays [Free] or becomes [Occupied]. *)
Theorem usage_map_monotone `{Transport Bus} (fuel : nat) (c c' : config Bus)
    (out : list event) :
  enumerate_steps fuel c = (Ok c', out) ->
  (length (usage_map (cfg_state c)) <= length (usage_map (cfg_state c')))%nat /\
  forall j,
    (usage_map (cfg_state c) !! j = Some Occupied ->
     usage_map (cfg_state c') !! j = Some Occupied) /\
    (usage_map (cfg_state c) !! j = Some Free ->
     usage_map (cfg_state c') !! j = Some Free \/
     usage_map (cfg_state c') !! j = Some Occupied).
Proof.
  intros Hrun.
  assert (Hle : usage_le (usage_map (cfg_state c)) (usage_map (cfg_state c'))).
  { revert c out Hrun. induction fuel as [|fuel IH]; intros c out Hrun.
    - simpl in Hrun. inversion Hrun; subst. apply usage_le_refl.
    - rewrite enumerate_steps_S in Hrun.
      destruct (enumerate_step c) as [[c1|e] out1] eqn:Hstep; [|discriminate].
      destruct (enumerate_steps fuel c1) as [r out2] eqn:Hrest.
      simpl in Hrun. inversion Hrun; subst.
      eapply usage_le_trans.
      + eapply enumerate_step_usage_le. exact Hstep.
      + eapply IH. exact Hrest. }
  destruct Hle as [Hlen Hent]. split; [exact Hlen|].
  intros j. split; intros Hj; destruct (Hent j _ Hj) as (y & Hy & Hxy);
    simpl in Hxy.
  - rewrite Hy, Hxy. reflexivity.
  - destruct Hxy as [-> | ->]; auto.
Qed.

Lemma usage_map_monotone_witness :
  (length [Unknown; Occupied; Free; Free]
     <= length [Unknown; Occupied; Occupied; Occupied])%nat /\
  ([Unknown; Occupied; Occupied; Occupied] : usage) !! 1%nat = Some Occupied.
Proof.
  edestruct (usage_map_monotone 1
    (mkConfig Learning (mkLrn [Unknown; Occupied; Free; Free] false)
       [Ok (reply_frame 0 2); Ok (reply_frame 0 2)])
    (mkConfig Learning (mkLrn [Unknown; Occupied; Occupied; Occupied] false) []))
    as [Hlen Hent]; [reflexivity|].
  split; [exact Hlen|].
  apply (proj1 (Hent 1%nat)). reflexivity.
Defined.

(** ** Runs of the enumerator *)


(** A device that claims no address at all stalls the scan: the pass
    leaves the map and the bus as they were. *)
Example scan_zero_size_stalls :
  exists out, scan_step [(1, 0)] [Unknown] = Continue [Unknown] [(1, 0)] out.
Proof. eexists. vm_compute. reflexivity. Qed.

(** Devices at address 1 (two addresses) and at address 5 (one address),
    every other probe timing out: 254 passes finish the scan. *)
Example scan_scenario :
  fst (enumerate 254 [(1, 2); (5, 1)])
  = Ok (mkConfig Learning
          (mkLrn ([Unknown; Occupied; Occupied; Free; Free; Occupied]
                    ++ replicate 249 Free) false)
          [(1, 2); (5, 1)]).
Proof. vm_compute. reflexivity. Qed.

(** Addresses 1 to 3 taken: a learn-mode device of size 1 is given
    address 4. *)
Example lrn_scenario :
  lrn_step [Ok (reply_frame 0 1); Ok (reply_frame 4 1)]
    (mkLrn [Unknown; Occupied; Occupied; Occupied; Free] false)
  = Continue (mkLrn [Unknown; Occupied; Occupied; Occupied; Occupied] false) []
      [Sent (discovery_request 0); PrintLrnAvailable [0; 0; 0; 1] 1;
       Sent (assign_request 4); PrintAssigned 4].
Proof. vm_compute. reflexivity. Qed.

(** * Further properties *)

(** ** The codec, in both directions *)

Lemma mk_bytes_Ok (l b : bytes) : mk_bytes l = Ok b <-> is_bytes l /\ b = l.
Proof.
  unfold mk_bytes, is_bytes. destruct (forallb is_byte l).
  - split; [intros [= <-]; auto | intros [_ ->]; reflexivity].
  - split; [discriminate | intros [H _]; discriminate].
Qed.

Lemma mk_bytes_is_bytes (l : bytes) : is_bytes l -> mk_bytes l = Ok l.
Proof. intros H. apply mk_bytes_Ok. auto. Qed.

Lemma mk_bytes_cases (l : bytes) :
  (is_bytes l /\ mk_bytes l = Ok l) \/ (~ is_bytes l /\ mk_bytes l = Raise ValueError).
Proof.
  unfold mk_bytes, is_bytes. destruct (forallb is_byte l); [left | right]; auto.
Qed.

Lemma is_bytes_app (a b : bytes) : is_bytes (a ++ b) <-> is_bytes a /\ is_bytes b.
Proof. unfold is_bytes. rewrite forallb_app. apply andb_true_iff. Qed.

Lemma is_bytes_cons (x : Z) (l : bytes) :
  is_bytes (x :: l) <-> is_byte x = true /\ is_bytes l.
Proof. unfold is_bytes. simpl. apply andb_true_iff. Qed.

Lemma is_byte_mod (x : Z) : is_byte (x mod 256) = true.
Proof.
  unfold is_byte. pose proof (Z.mod_pos_bound x 256 ltac:(lia)).
  apply andb_true_iff. split; [apply Z.leb_le | apply Z.ltb_lt]; lia.
Qed.

Lemma is_bytes_serialize (body : bytes) :
  is_bytes (ESP2Message_serialize body) <-> is_bytes body.
Proof.
  unfold ESP2Message_serialize. rewrite !is_bytes_app. split; [tauto|].
  intros Hb. split; [reflexivity|]. split; [exact Hb|].
  apply is_bytes_cons. split; [apply is_byte_mod | reflexivity].
Qed.

Lemma length_serialize (body : bytes) :
  length (ESP2Message_serialize body) = (length body + 3)%nat.
Proof.
  unfold ESP2Message_serialize, preamble. simpl. rewrite length_app. simpl. lia.
Qed.

(** A well-framed input is the serialization of its body. *)
Lemma well_framed_serialize (data : bytes) :
  well_framed data -> ESP2Message_serialize (slice data 2 13) = data.
Proof.
  intros (Hpre & Hlen & Hsum).
  do 14 (destruct data as [|? data]; [discriminate|]).
  destruct data; [|discriminate].
  unfold slice, preamble in *. simpl in *.
  inversion Hpre; subst. inversion Hsum as [Hc].
  unfold ESP2Message_serialize, preamble. simpl. rewrite <- Hc. reflexivity.
Qed.

(** X1: an input that [ESP2Message.parse] accepts is the serialization of
    the body it returns. *)
Theorem ESP2Message_parse_serialize (data : bytes) (m : ESP2Message) :
  ESP2Message_parse data = Ok m -> ESP2Message_serialize (esp2_body m) = data.
Proof.
  intros Hp. apply ESP2Message_parse_Ok in Hp as [Hw ->]. simpl.
  apply well_framed_serialize. exact Hw.
Qed.

Lemma ESP2Message_parse_serialize_witness :
  ESP2Message_serialize [139; 248; 0; 0; 0; 0; 0; 0; 0; 0; 0]
  = [165; 90; 139; 248; 0; 0; 0; 0; 0; 0; 0; 0; 0; 131].
Proof.
  apply (ESP2Message_parse_serialize
    [165; 90; 139; 248; 0; 0; 0; 0; 0; 0; 0; 0; 0; 131]
    (mkESP2 [139; 248; 0; 0; 0; 0; 0; 0; 0; 0; 0])).
  reflexivity.
Defined.

Lemma direction_of_code (d : bool) : direction_of (direction_code d) = Some d.
Proof. destruct d; reflexivity. Qed.

Lemma direction_of_Some (code : Z) (d : bool) :
  direction_of code = Some d -> code = direction_code d.
Proof.
  unfold direction_of.
  destruct (Z.eqb_spec code TCT) as [->|_]; [intros [= <-]; reflexivity|].
  destruct (Z.eqb_spec code RMT) as [->|_]; [intros [= <-]; reflexivity|].
  discriminate.
Qed.

(** Parsing the frame around an 11-byte body of an [EltakoMessage]. *)
Lemma EltakoMessage_parse_frame (m : EltakoMessage) :
  length (payload m) = 8%nat ->
  EltakoMessage_parse
    (ESP2Message_serialize
       (direction_code (is_request m) :: org m :: payload m ++ [address m]))
  = Ok m.
Proof.
  intros Hlen. destruct m as [o a p d]. simpl in *.
  do 8 (destruct p as [|? p]; [discriminate|]). destruct p; [|discriminate].
  unfold EltakoMessage_parse.
  match goal with |- context [ESP2Message_parse (ESP2Message_serialize ?b)] =>
    destruct (serialize_well_framed b eq_refl) as [Hw Hb];
    rewrite (proj2 (ESP2Message_parse_Ok (ESP2Message_serialize b) (mkESP2 b)))
      by (rewrite Hb; auto)
  end.
  simpl. rewrite direction_of_code. reflexivity.
Qed.

(** The frames [EltakoMessage.parse] accepts. *)
Lemma EltakoMessage_parse_inv (data : bytes) (m : EltakoMessage) :
  EltakoMessage_parse data = Ok m ->
  length (payload m) = 8%nat /\
  data = ESP2Message_serialize
           (direction_code (is_request m) :: org m :: payload m ++ [address m]).
Proof.
  unfold EltakoMessage_parse. intros Hp.
  destruct (ESP2Message_parse_cases data) as [[Hw E]|[_ [msg E]]];
    rewrite E in Hp; [|discriminate].
  rewrite <- (well_framed_serialize data Hw).
  pose proof (well_framed_body_length data Hw) as Hlen.
  destruct (slice data 2 13) as [|code body]; [discriminate|].
  do 10 (destruct body as [|? body]; [discriminate|]).
  destruct body; [|discriminate].
  simpl in Hp. destruct (direction_of code) as [d|] eqn:Hd; [|discriminate].
  apply direction_of_Some in Hd as ->. inversion Hp; subst. simpl.
  split; reflexivity.
Qed.

Lemma EltakoMessage_serialize_frame (m : EltakoMessage) :
  is_bytes (direction_code (is_request m) :: org m :: payload m ++ [address m]) ->
  EltakoMessage_serialize m
  = Ok (ESP2Message_serialize
          (direction_code (is_request m) :: org m :: payload m ++ [address m])).
Proof.
  intros Hbody. unfold EltakoMessage_serialize, EltakoMessage_body.
  fold (direction_code (is_request m)).
  rewrite (mk_bytes_is_bytes _ Hbody). reflexivity.
Qed.

(** X2: an [EltakoMessage] whose fields are bytes, with a payload of 8
    bytes, serializes to 14 bytes, and parsing them gives the message
    back, direction flag included. *)
Theorem EltakoMessage_roundtrip (m : EltakoMessage) :
  is_byte (org m) = true -> is_byte (address m) = true ->
  is_bytes (payload m) -> length (payload m) = 8%nat ->
  exists data,
    EltakoMessage_serialize m = Ok data /\ length data = 14%nat /\
    is_bytes data /\ EltakoMessage_parse data = Ok m.
Proof.
  intros Ho Ha Hp Hlen.
  assert (Hbody : is_bytes
    (direction_code (is_request m) :: org m :: payload m ++ [address m])).
  { apply is_bytes_cons. split; [destruct (is_request m); reflexivity|].
    apply is_bytes_cons. split; [exact Ho|].
    apply is_bytes_app. split; [exact Hp|].
    apply is_bytes_cons. split; [exact Ha | reflexivity]. }
  eexists. split; [|split; [|split]].
  - unfold EltakoMessage_serialize, EltakoMessage_body.
    fold (direction_code (is_request m)).
    rewrite (mk_bytes_is_bytes _ Hbody). reflexivity.
  - rewrite length_serialize. simpl. rewrite length_app, Hlen. reflexivity.
  - apply is_bytes_serialize. exact Hbody.
  - apply EltakoMessage_parse_frame. exact Hlen.
Qed.

Lemma EltakoMessage_roundtrip_witness :
  exists data,
    EltakoMessage_serialize (assign_request 7) = Ok data /\ length data = 14%nat /\
    is_bytes data /\ EltakoMessage_parse data = Ok (assign_request 7).
Proof.
  apply (EltakoMessage_roundtrip (assign_request 7)); reflexivity.
Defined.

(** X3: [EltakoMessage] does not check its payload: with a payload of
    another length than 8 the message still serializes, to a frame of
    [len(payload) + 6] bytes that every parse rejects. *)
Theorem EltakoMessage_wrong_payload_length (m : EltakoMessage) (data : bytes) :
  EltakoMessage_serialize m = Ok data -> length (payload m) <> 8%nat ->
  length data = (length (payload m) + 6)%nat /\
  is_ParseError (ESP2Message_parse data) /\
  is_ParseError (EltakoMessage_parse data) /\
  is_ParseError (EltakoDiscoveryReply_parse data) /\
  is_ParseError (EltakoTimeout_parse data).
Proof.
  unfold EltakoMessage_serialize, EltakoMessage_body. intros Hs Hlen.
  destruct (mk_bytes_cases
    ((if is_request m then TCT else RMT) :: org m :: payload m ++ [address m]))
    as [[_ E]|[_ E]]; rewrite E in Hs; [|discriminate].
  simpl in Hs. injection Hs as Hd. clear E.
  assert (Hl : length data = (length (payload m) + 6)%nat).
  { rewrite <- Hd, length_serialize. simpl. rewrite length_app. simpl. lia. }
  assert (He : is_ParseError (ESP2Message_parse data)).
  { destruct (ESP2Message_parse_cases data) as [[(_ & Hw & _) _]|[_ He]];
      [lia | exact He]. }
  split; [exact Hl|]. split; [exact He|].
  destruct He as [msg He].
  assert (Hm : EltakoMessage_parse data = Raise (ParseError msg))
    by (unfold EltakoMessage_parse; rewrite He; reflexivity).
  split; [eexists; exact Hm|].
  split; eexists.
  - unfold EltakoDiscoveryReply_parse. rewrite Hm. reflexivity.
  - unfold EltakoTimeout_parse. rewrite Hm. reflexivity.
Qed.

Lemma EltakoMessage_wrong_payload_length_witness :
  is_ParseError (EltakoMessage_parse [165; 90; 171; 240; 1; 2; 0; 158]).
Proof.
  apply (EltakoMessage_wrong_payload_length (mkEltako 240 0 [1; 2] true)
           [165; 90; 171; 240; 1; 2; 0; 158]);
    [reflexivity | simpl; lia].
Defined.

(** X4: a byte string that [EltakoMessage.parse] accepts is the
    serialization of the message it returns. *)
Theorem EltakoMessage_parse_serialize (data : bytes) (m : EltakoMessage) :
  is_bytes data -> EltakoMessage_parse data = Ok m ->
  EltakoMessage_serialize m = Ok data.
Proof.
  intros Hb Hp. apply EltakoMessage_parse_inv in Hp as [_ Hd].
  unfold EltakoMessage_serialize, EltakoMessage_body.
  fold (direction_code (is_request m)).
  rewrite Hd in Hb. apply (proj1 (is_bytes_serialize _)) in Hb.
  rewrite (mk_bytes_is_bytes _ Hb). simpl. rewrite <- Hd. reflexivity.
Qed.

Lemma EltakoMessage_parse_serialize_witness :
  EltakoMessage_serialize (mkEltako 248 0 zeros8 false) = Ok timeout_frame.
Proof.
  apply (EltakoMessage_parse_serialize timeout_frame (mkEltako 248 0 zeros8 false));
    reflexivity.
Defined.

(** ** The specialized messages, in both directions *)

(** The message inside a frame [EltakoDiscoveryReply.parse] accepts. *)
Lemma EltakoDiscoveryReply_parse_inv (data : bytes) (r : EltakoDiscoveryReply) :
  EltakoDiscoveryReply_parse data = Ok r ->
  length (model r) = 4%nat /\
  EltakoMessage_parse data
  = Ok (mkEltako 240 0 ([reported_address r; reported_size r; 127; 8] ++ model r) false).
Proof.
  unfold EltakoDiscoveryReply_parse. intros Hp.
  destruct (EltakoMessage_parse data) as [m|e] eqn:Hm; [|discriminate].
  apply EltakoMessage_parse_inv in Hm as [Hlen _].
  destruct m as [o a p d]. simpl in *.
  unfold discovery_org, discovery_is_request, discovery_address in Hp.
  destruct (Z.eqb_spec o 240) as [->|]; [|discriminate].
  destruct d; [discriminate|].
  destruct (Z.eqb_spec a 0) as [->|]; [|discriminate].
  simpl in Hp.
  do 8 (destruct p as [|? p]; [discriminate|]). destruct p; [|discriminate].
  destruct (bytes_eqb _ _) eqn:Hfix; [|discriminate].
  apply bytes_eqb_true in Hfix. unfold slice in Hfix. simpl in Hfix.
  inversion Hfix; subst. simpl in Hp. inversion Hp; subst. simpl.
  split; reflexivity.
Qed.

Lemma EltakoDiscoveryReply_parse_message (r : EltakoDiscoveryReply) (data : bytes) :
  length (model r) = 4%nat ->
  EltakoMessage_parse data
  = Ok (mkEltako 240 0 ([reported_address r; reported_size r; 127; 8] ++ model r) false) ->
  EltakoDiscoveryReply_parse data = Ok r.
Proof.
  intros Hlen Hm. unfold EltakoDiscoveryReply_parse. rewrite Hm.
  destruct r as [ra rs md]. simpl in *.
  do 4 (destruct md as [|? md]; [discriminate|]). destruct md; [|discriminate].
  reflexivity.
Qed.

(** X5: an [EltakoDiscoveryReply] whose fields are bytes, with a model of
    4 bytes, serializes through the inherited [serialize], and parsing the
    frame gives the reply back. *)
Theorem EltakoDiscoveryReply_roundtrip (r : EltakoDiscoveryReply) :
  is_byte (reported_address r) = true -> is_byte (reported_size r) = true ->
  is_bytes (model r) -> length (model r) = 4%nat ->
  exists data,
    EltakoDiscoveryReply_serialize r = Ok data /\ length data = 14%nat /\
    EltakoDiscoveryReply_parse data = Ok r.
Proof.
  intros Ha Hs Hm Hlen.
  set (m := mkEltako 240 0
              ([reported_address r; reported_size r; 127; 8] ++ model r) false).
  assert (Hbody : is_bytes
    (direction_code (is_request m) :: org m :: payload m ++ [address m])).
  { simpl. apply is_bytes_cons. split; [reflexivity|].
    apply is_bytes_cons. split; [reflexivity|].
    apply is_bytes_cons. split; [exact Ha|].
    apply is_bytes_cons. split; [exact Hs|].
    apply is_bytes_cons. split; [reflexivity|].
    apply is_bytes_cons. split; [reflexivity|].
    apply is_bytes_app. split; [exact Hm | reflexivity]. }
  pose proof (EltakoMessage_serialize_frame m Hbody) as Hser.
  eexists. split; [|split].
  - unfold EltakoDiscoveryReply_serialize, EltakoDiscoveryReply_body,
      EltakoDiscoveryReply_payload.
    rewrite mk_bytes_is_bytes.
    2:{ apply is_bytes_cons. split; [exact Ha|].
        apply is_bytes_cons. split; [exact Hs | reflexivity]. }
    exact Hser.
  - rewrite length_serialize. simpl. rewrite length_app, Hlen. reflexivity.
  - apply EltakoDiscoveryReply_parse_message; [exact Hlen|].
    apply (EltakoMessage_parse_frame m). simpl. lia.
Qed.

Lemma EltakoDiscoveryReply_roundtrip_witness :
  exists data,
    EltakoDiscoveryReply_serialize (mkReply 5 2 [0; 0; 0; 1]) = Ok data /\
    length data = 14%nat /\
    EltakoDiscoveryReply_parse data = Ok (mkReply 5 2 [0; 0; 0; 1]).
Proof.
  apply (EltakoDiscoveryReply_roundtrip (mkReply 5 2 [0; 0; 0; 1])); reflexivity.
Defined.

(** X6: a byte string that [EltakoDiscoveryReply.parse] accepts is the
    serialization of the reply it returns: the frame holds nothing beyond
    the three fields of the reply. *)
Theorem EltakoDiscoveryReply_parse_serialize (data : bytes)
    (r : EltakoDiscoveryReply) :
  is_bytes data -> EltakoDiscoveryReply_parse data = Ok r ->
  EltakoDiscoveryReply_serialize r = Ok data.
Proof.
  intros Hb Hp. apply EltakoDiscoveryReply_parse_inv in Hp as [Hlen Hm].
  apply EltakoMessage_parse_inv in Hm as [_ Hd]. simpl in Hd.
  rewrite Hd in Hb. apply (proj1 (is_bytes_serialize _)) in Hb.
  pose proof (EltakoMessage_serialize_frame
    (mkEltako 240 0 ([reported_address r; reported_size r; 127; 8] ++ model r) false)
    Hb) as Hser.
  simpl in Hser. rewrite <- Hd in Hser.
  apply is_bytes_cons in Hb as [_ Hb].
  apply is_bytes_cons in Hb as [_ Hb].
  apply is_bytes_cons in Hb as [Ha Hb].
  apply is_bytes_cons in Hb as [Hs _].
  unfold EltakoDiscoveryReply_serialize, EltakoDiscoveryReply_body,
    EltakoDiscoveryReply_payload.
  rewrite mk_bytes_is_bytes.
  2:{ apply is_bytes_cons. split; [exact Ha|].
      apply is_bytes_cons. split; [exact Hs | reflexivity]. }
  exact Hser.
Qed.

Lemma EltakoDiscoveryReply_parse_serialize_witness :
  EltakoDiscoveryReply_serialize (mkReply 3 2 [0; 0; 0; 1]) = Ok (reply_frame 3 2).
Proof.
  apply (EltakoDiscoveryReply_parse_serialize (reply_frame 3 2)
           (mkReply 3 2 [0; 0; 0; 1])); reflexivity.
Defined.

Lemma EltakoTimeout_parse_inv (data : bytes) :
  is_Ok (EltakoTimeout_parse data) ->
  EltakoMessage_parse data = Ok (mkEltako 248 0 zeros8 false).
Proof.
  unfold EltakoTimeout_parse. intros [t Hp].
  destruct (EltakoMessage_parse data) as [m|e]; [|discriminate].
  destruct m as [o a p d]. simpl in Hp.
  unfold timeout_org, timeout_is_request, timeout_payload, timeout_address in Hp.
  destruct (Z.eqb_spec o 248) as [->|]; [|discriminate].
  destruct d; [discriminate|].
  destruct (bytes_eqb p zeros8) eqn:Hz; [|discriminate].
  apply bytes_eqb_true in Hz as ->.
  destruct (Z.eqb_spec a 0) as [Ha|]; [|discriminate].
  rewrite Ha. reflexivity.
Qed.

Lemma EltakoTimeout_parse_timeout_frame (data : bytes) :
  is_Ok (EltakoTimeout_parse data) <-> data = timeout_frame.
Proof.
  split.
  - intros Hp. apply EltakoTimeout_parse_inv in Hp.
    apply EltakoMessage_parse_inv in Hp as [_ ->]. reflexivity.
  - intros ->. exists mkTimeout. vm_compute. reflexivity.
Qed.

Lemma EltakoTimeout_serialize_frame : EltakoTimeout_serialize = Ok timeout_frame.
Proof. reflexivity. Qed.

(** X7: [EltakoTimeout.parse] accepts one input only, the 14 bytes that
    [EltakoTimeout().serialize()] produces. *)
Theorem EltakoTimeout_parse_iff (data : bytes) :
  is_Ok (EltakoTimeout_parse data) <-> EltakoTimeout_serialize = Ok data.
Proof.
  rewrite EltakoTimeout_parse_timeout_frame, EltakoTimeout_serialize_frame.
  split; [intros ->; reflexivity | intros [= <-]; reflexivity].
Qed.

(** ** What [exchange] reports *)

(** X8: when the transport delivers a response to a discovery exchange,
    [exchange] raises [TimeoutError] exactly when the response is the
    serialized [EltakoTimeout]; any other response gives the reply or a
    [ParseError]. *)
Theorem exchange_timeout_iff `{Transport Bus} (context context' : Bus)
    (req : EltakoMessage) (coap_request coap_response : bytes) :
  EltakoMessage_serialize req = Ok coap_request ->
  request context coap_request = (Ok coap_response, context') ->
  (exchange context req EltakoDiscoveryReply_parse = (Raise TimeoutError, context')
     <-> EltakoTimeout_serialize = Ok coap_response) /\
  (EltakoTimeout_serialize <> Ok coap_response ->
   exchange context req EltakoDiscoveryReply_parse
   = (EltakoDiscoveryReply_parse coap_response, context')).
Proof.
  intros Hser Hreq. unfold exchange. rewrite Hser, Hreq.
  assert (Hiff : is_Ok (EltakoTimeout_parse coap_response)
                 <-> EltakoTimeout_serialize = Ok coap_response).
  { rewrite EltakoTimeout_parse_timeout_frame, EltakoTimeout_serialize_frame.
    split; [intros ->; reflexivity | intros [= <-]; reflexivity]. }
  rewrite <- Hiff. clear Hiff.
  pose proof (EltakoDiscoveryReply_parse_total coap_response) as Hd.
  pose proof (EltakoTimeout_parse_total coap_response) as Ht.
  pose proof (specialized_parses_exclusive coap_response) as Hex.
  destruct (EltakoDiscoveryReply_parse coap_response) as [r|e]; simpl in Hd.
  - split.
    + split; [discriminate|]. intros Hok. exfalso. apply Hex.
      split; [eexists; reflexivity | exact Hok].
    + reflexivity.
  - destruct Hd as [msg ->].
    destruct (EltakoTimeout_parse coap_response) as [t|e]; simpl in Ht.
    + split; [split; [eexists; reflexivity | reflexivity]|].
      intros Hno. exfalso. apply Hno. eexists; reflexivity.
    + destruct Ht as [msg' ->]. split; [|reflexivity].
      split; [discriminate | intros [t Hc]; discriminate].
Qed.

Lemma exchange_timeout_iff_witness :
  exchange [Ok (reply_frame 1 2)] (discovery_request 1) EltakoDiscoveryReply_parse
  = (EltakoDiscoveryReply_parse (reply_frame 1 2), []).
Proof.
  eapply (exchange_timeout_iff [Ok (reply_frame 1 2)] [] (discovery_request 1));
    [reflexivity | reflexivity | discriminate].
Defined.

(** ** Requests of the enumerator *)

Lemma valid_request_serialize (req : EltakoMessage) :
  valid_request req -> is_Ok (EltakoMessage_serialize req).
Proof.
  assert (Hb : forall a, (a <= 254)%nat -> is_byte (Z.of_nat a) = true).
  { intros a Ha. unfold is_byte. apply andb_true_iff.
    split; [apply Z.leb_le | apply Z.ltb_lt]; lia. }
  intros [(a & Ha & ->)|(a & Ha & ->)];
    unfold EltakoMessage_serialize, EltakoMessage_body; simpl;
    (rewrite mk_bytes_is_bytes; [eexists; reflexivity|]);
    unfold is_bytes; simpl; rewrite Hb by lia; reflexivity.
Qed.

Lemma scan_step_requests `{Transport Bus} (context : Bus) (m : usage)
    (req : EltakoMessage) :
  Sent req ∈ step_out (scan_step context m) -> valid_request req.
Proof.
  unfold scan_step. destruct (Nat.ltb_spec (length m) 255) as [Hlt|_].
  2:{ simpl. intros Hin. inversion Hin. }
  assert (Hv : valid_request (discovery_request (length m))).
  { left. exists (length m). split; [lia | reflexivity]. }
  destruct (exchange context _ _) as [[response|e] context'].
  - destruct (negb _); simpl; intros Hin;
      repeat (apply elem_of_cons in Hin as [Hin|Hin];
              [first [discriminate | (injection Hin as ->; exact Hv)]|]);
      inversion Hin.
  - destruct e; simpl; intros Hin;
      repeat (apply elem_of_cons in Hin as [Hin|Hin];
              [first [discriminate | (injection Hin as ->; exact Hv)]|]);
      inversion Hin.
Qed.

Lemma lrn_step_requests `{Transport Bus} (context : Bus) (st : lrn_state)
    (req : EltakoMessage) :
  Sent req ∈ step_out (lrn_step context st) -> valid_request req.
Proof.
  assert (Hv0 : valid_request (discovery_request 0)).
  { left. exists 0%nat. split; [lia | reflexivity]. }
  unfold lrn_step.
  destruct (exchange context _ _) as [[response|e] context1].
  - pose proof (find_slot_first (usage_map st) (Z.to_nat (reported_size response)))
      as Hf.
    destruct (find_slot _ _) as [i|].
    + assert (Hvi : valid_request (assign_request i)).
      { right. exists i. split; [lia | reflexivity]. }
      destruct (exchange context1 _ _) as [[response2|e] context2];
        [destruct (_ =? 0); [|destruct (negb _)]|]; simpl; intros Hin;
        repeat (apply elem_of_cons in Hin as [Hin|Hin];
                [first [discriminate
                       | (injection Hin as ->; first [exact Hv0 | exact Hvi])]|]);
        inversion Hin.
    + simpl. intros Hin.
      repeat (apply elem_of_cons in Hin as [Hin|Hin];
              [first [discriminate | (injection Hin as ->; exact Hv0)]|]);
      inversion Hin.
  - destruct e; try destruct (reported st); simpl; intros Hin;
      repeat (apply elem_of_cons in Hin as [Hin|Hin];
              [first [discriminate | (injection Hin as ->; exact Hv0)]|]);
      inversion Hin.
Qed.

Lemma enumerate_step_requests `{Transport Bus} (c : config Bus)
    (req : EltakoMessage) :
  Sent req ∈ snd (enumerate_step c) -> valid_request req.
Proof.
  unfold enumerate_step. destruct (cfg_phase c).
  - pose proof (scan_step_requests (cfg_context c) (usage_map (cfg_state c)) req)
      as Hs.
    destruct (scan_step _ _); simpl in *; try exact Hs.
    intros Hin. apply elem_of_app in Hin as [Hin|Hin]; [exact (Hs Hin)|].
    apply list_elem_of_singleton in Hin. discriminate.
  - pose proof (lrn_step_requests (cfg_context c) (cfg_state c) req) as Hs.
    destruct (lrn_step _ _); simpl in *; exact Hs.
Qed.

(** X9: whatever the bus answers, every request the enumerator sends is
    a discovery request to an address from 0 to 254 or an assignment of
    an address from 1 to 253, and it serializes without error. *)
Theorem enumerate_requests_valid `{Transport Bus} (fuel : nat) (c : config Bus)
    (req : EltakoMessage) :
  Sent req ∈ snd (enumerate_steps fuel c) ->
  valid_request req /\ is_Ok (EltakoMessage_serialize req).
Proof.
  intros Hin.
  assert (Hv : valid_request req).
  { revert c Hin. induction fuel as [|fuel IH]; intros c Hin.
    - simpl in Hin. inversion Hin.
    - rewrite enumerate_steps_S in Hin.
      pose proof (enumerate_step_requests c req) as Hs.
      destruct (enumerate_step c) as [[c1|e] out]; simpl in *.
      + apply elem_of_app in Hin as [Hin|Hin]; [exact (Hs Hin) | exact (IH _ Hin)].
      + exact (Hs Hin). }
  split; [exact Hv | apply valid_request_serialize, Hv].
Qed.

Lemma enumerate_requests_valid_witness :
  valid_request (assign_request 4) /\
  is_Ok (EltakoMessage_serialize (assign_request 4)).
Proof.
  apply (enumerate_requests_valid 1
    (mkConfig Learning (mkLrn [Unknown; Occupied; Occupied; Occupied; Free] false)
       [Ok (reply_frame 0 1); Ok (reply_frame 4 1)])).
  vm_compute. do 2 apply list_elem_of_further. apply list_elem_of_here.
Defined.

(** ** Invariants of a run *)

Lemma scanned_app (m : usage) (k : nat) (x : bool) :
  (1 <= length m)%nat -> scanned m -> scanned (m ++ replicate k (Some x)).
Proof.
  intros Hlen [H0 Hrest]. split.
  - rewrite lookup_app_l by lia. exact H0.
  - intros j Hj. rewrite length_app, length_replicate in Hj.
    destruct (decide (j < length m)%nat) as [Hin|Hout].
    + rewrite lookup_app_l by lia. apply Hrest. lia.
    + rewrite lookup_app_r by lia. rewrite lookup_replicate_2 by lia.
      destruct x; auto.
Qed.

Lemma scanned_slice_assign (m : usage) (i size : nat) :
  (1 <= i <= length m)%nat -> scanned m ->
  scanned (slice_assign m i (i + size) (replicate size Occupied)).
Proof.
  intros Hi [H0 Hrest]. split.
  - rewrite slice_assign_lookup_before by lia. exact H0.
  - intros j Hj.
    destruct (decide (j < i)%nat) as [Hb|Hb].
    + rewrite slice_assign_lookup_before by lia. apply Hrest. lia.
    + destruct (decide (j < i + size)%nat) as [Hr|Hr].
      * right. apply slice_assign_lookup_in; lia.
      * rewrite slice_assign_lookup_after by (rewrite ?length_replicate; lia).
        apply Hrest. split; [lia|].
        unfold slice_assign in Hj.
        rewrite !length_app, length_take, length_replicate, length_drop in Hj.
        lia.
Qed.

Lemma run_invariant_init {Bus} (context : Bus) :
  run_invariant (enumerate_init context).
Proof.
  unfold run_invariant, enumerate_init, scanned. simpl.
  split; [lia|]. split; [|discriminate].
  split; [reflexivity | intros j Hj; lia].
Qed.

Lemma run_invariant_step `{Transport Bus} (c c' : config Bus) (out : list event) :
  run_invariant c -> enumerate_step c = (Ok c', out) -> run_invariant c'.
Proof.
  intros (Hlen & Hsc & Hcov). unfold enumerate_step.
  destruct c as [p st context]. simpl in *. destruct p.
  - unfold scan_step.
    destruct (Nat.ltb_spec (length (usage_map st)) 255) as [Hlt|Hge].
    + destruct (exchange context _ _) as [[response|e] context'].
      * destruct (negb _); [discriminate|]. intros [= <- _].
        unfold run_invariant. simpl.
        split; [rewrite length_app; lia|].
        split; [apply scanned_app; assumption | discriminate].
      * destruct e; try discriminate. intros [= <- _].
        unfold run_invariant. simpl.
        split; [rewrite length_app; lia|].
        split; [apply (scanned_app _ 1); assumption | discriminate].
    + intros [= <- _]. unfold run_invariant. simpl.
      split; [exact Hlen|]. split; [exact Hsc|].
      intros _. apply covers_length. exact Hge.
  - specialize (Hcov eq_refl). apply covers_length in Hcov.
    unfold lrn_step.
    destruct (exchange context _ _) as [[response|e] context1].
    + pose proof (find_slot_first (usage_map st) (Z.to_nat (reported_size response)))
        as Hf.
      destruct (find_slot _ _) as [i|]; [|discriminate].
      destruct Hf as (Hi1 & Hi2 & _).
      assert (Hinv : run_invariant
        (mkConfig Learning
           (mkLrn (slice_assign (usage_map st) i
                     (i + Z.to_nat (reported_size response))
                     (replicate (Z.to_nat (reported_size response)) Occupied))
                  (reported st)) context1)).
      { unfold run_invariant. simpl.
        pose proof (slice_assign_length (usage_map st) i
          (Z.to_nat (reported_size response))
          (replicate (Z.to_nat (reported_size response)) Occupied)
          (length_replicate _ _)) as Hl.
        split; [lia|].
        split; [apply scanned_slice_assign; [lia | exact Hsc]|].
        intros _. apply covers_length. lia. }
      destruct Hinv as (I1 & I2 & I3).
      destruct (exchange context1 _ _) as [[response2|e] context2]; [|discriminate].
      destruct (_ =? 0); [|destruct (negb _)]; try discriminate;
        intros [= <- _]; unfold run_invariant; simpl; auto.
    + destruct e; try discriminate.
      destruct (reported st); intros [= <- _]; unfold run_invariant; simpl;
        (split; [exact Hlen|]; split; [exact Hsc|]; intros _;
         apply covers_length; exact Hcov).
Qed.

Lemma run_invariant_steps `{Transport Bus} (fuel : nat) (c c' : config Bus)
    (out : list event) :
  run_invariant c -> enumerate_steps fuel c = (Ok c', out) -> run_invariant c'.
Proof.
  revert c out. induction fuel as [|fuel IH]; intros c out Hinv Hrun.
  - simpl in Hrun. inversion Hrun; subst. exact Hinv.
  - rewrite enumerate_steps_S in Hrun.
    destruct (enumerate_step c) as [[c1|e] out1] eqn:Hstep; [|discriminate].
    destruct (enumerate_steps fuel c1) as [r out2] eqn:Hrest.
    simpl in Hrun. inversion Hrun; subst.
    eapply IH; [|exact Hrest]. eapply run_invariant_step; eassumption.
Qed.

(** X10: at every point of a run of [enumerate], entry 0 of the usage map
    is still [None] and every other entry is [False] or [True]: address 0
    is never marked, and no probed address is left undecided. *)
Theorem enumerate_map_scanned `{Transport Bus} (fuel : nat) (context : Bus)
    (c : config Bus) (out : list event) :
  enumerate_steps fuel (enumerate_init context) = (Ok c, out) ->
  scanned (usage_map (cfg_state c)).
Proof.
  intros Hrun.
  apply (run_invariant_steps fuel _ c out (run_invariant_init context) Hrun).
Qed.

Lemma enumerate_map_scanned_witness :
  scanned [Unknown; Occupied; Occupied; Free].
Proof.
  eapply (enumerate_map_scanned 2 [(1, 2); (5, 1)]
            (mkConfig Scanning (mkLrn [Unknown; Occupied; Occupied; Free] false)
               [(1, 2); (5, 1)])).
  vm_compute. reflexivity.
Defined.

(** X11: the learn loop is entered only with a map that covers the
    addresses 1 to 254. *)
Theorem learning_covers `{Transport Bus} (fuel : nat) (context : Bus)
    (c : config Bus) (out : list event) :
  enumerate_steps fuel (enumerate_init context) = (Ok c, out) ->
  cfg_phase c = Learning -> covers (usage_map (cfg_state c)).
Proof.
  intros Hrun.
  apply (run_invariant_steps fuel _ c out (run_invariant_init context) Hrun).
Qed.

Lemma learning_covers_witness :
  covers ([Unknown; Occupied; Occupied; Free; Free; Occupied] ++ replicate 249 Free).
Proof.
  eapply (learning_covers 254 [(1, 2); (5, 1)]
            (mkConfig Learning
               (mkLrn ([Unknown; Occupied; Occupied; Free; Free; Occupied]
                         ++ replicate 249 Free) false)
               [(1, 2); (5, 1)]));
    [vm_compute; reflexivity | reflexivity].
Defined.





(** *** The learn-mode hint *)

Lemma hints_app (a b : list event) : hints (a ++ b) = (hints a + hints b)%nat.
Proof. unfold hints. rewrite List.filter_app, length_app. reflexivity. Qed.

Lemma enumerate_step_hints `{Transport Bus} (c : config Bus) :
  match enumerate_step c with
  | (Ok c', out) => (hints out + hints_left c' <= hints_left c)%nat
  | (Raise _, out) => (hints out <= hints_left c)%nat
  end.
Proof.
  unfold enumerate_step, hints_left. destruct c as [p st context]. simpl.
  destruct p.
  - unfold scan_step. destruct (_ <? _)%nat.
    + destruct (exchange context _ _) as [[response|e] context'].
      * destruct (negb _); unfold hints; simpl; lia.
      * destruct e; unfold hints; simpl; lia.
    + unfold hints. simpl. lia.
  - unfold lrn_step. destruct st as [m rep]. simpl.
    destruct (exchange context _ _) as [[response|e] context1].
    + destruct (find_slot _ _) as [i|];
        [|unfold hints; simpl; destruct rep; simpl; lia].
      destruct (exchange context1 _ _) as [[response2|e] context2];
        [destruct (_ =? 0); [|destruct (negb _)]|];
        unfold hints; simpl; destruct rep; simpl; lia.
    + destruct e; destruct rep; unfold hints; simpl; lia.
Qed.

Lemma enumerate_steps_hints `{Transport Bus} (fuel : nat) (c : config Bus) :
  (hints (snd (enumerate_steps fuel c)) <= hints_left c)%nat.
Proof.
  revert c. induction fuel as [|fuel IH]; intros c.
  - simpl. unfold hints. simpl. lia.
  - rewrite enumerate_steps_S. pose proof (enumerate_step_hints c) as Hs.
    destruct (enumerate_step c) as [[c1|e] out]; simpl; [|exact Hs].
    rewrite hints_app. specialize (IH c1). lia.
Qed.

(** X13: however long [enumerate] runs and whatever the bus answers, the
    hint to put a device into LRN mode is printed at most once. *)
Theorem hint_printed_once `{Transport Bus} (fuel : nat) (context : Bus) :
  (hints (snd (enumerate fuel context)) <= 1)%nat.
Proof.
  unfold enumerate.
  pose proof (enumerate_steps_hints fuel (enumerate_init context)) as Hh.
  destruct (enumerate_steps fuel (enumerate_init context)) as [r out].
  simpl in *. exact Hh.
Qed.

(** *** Addresses in use are not given away *)

Lemma enumerate_steps_usage_le `{Transport Bus} (fuel : nat) (c c' : config Bus)
    (out : list event) :
  enumerate_steps fuel c = (Ok c', out) ->
  usage_le (usage_map (cfg_state c)) (usage_map (cfg_state c')).
Proof.
  revert c out. induction fuel as [|fuel IH]; intros c out Hrun.
  - simpl in Hrun. inversion Hrun; subst. apply usage_le_refl.
  - rewrite enumerate_steps_S in Hrun.
    destruct (enumerate_step c) as [[c1|e] out1] eqn:Hstep; [|discriminate].
    destruct (enumerate_steps fuel c1) as [r out2] eqn:Hrest.
    simpl in Hrun. inversion Hrun; subst.
    eapply usage_le_trans; [eapply enumerate_step_usage_le; exact Hstep|].
    eapply IH. exact Hrest.
Qed.

(** X14: an address marked [Occupied] at some point of a run, by the scan
    or by a reservation, lies in no range offered to a learn-mode device
    at any later point. *)
Theorem occupied_never_offered `{Transport Bus} (fuel : nat) (c c' : config Bus)
    (out : list event) (j size i : nat) :
  usage_map (cfg_state c) !! j = Some Occupied ->
  enumerate_steps fuel c = (Ok c', out) ->
  find_slot (usage_map (cfg_state c')) size = Some i ->
  ~ (i <= j < i + size)%nat.
Proof.
  intros Hocc Hrun Hslot Hj.
  destruct (enumerate_steps_usage_le fuel c c' out Hrun) as [_ Hent].
  destruct (Hent j _ Hocc) as (y & Hy & Hle). simpl in Hle. subst y.
  pose proof (find_slot_first (usage_map (cfg_state c')) size) as Hf.
  rewrite Hslot in Hf. destruct Hf as (_ & _ & Hav & _).
  exact (Hav j Hj Hy).
Qed.

Lemma occupied_never_offered_witness : ~ (3 <= 1 < 3 + 1)%nat.
Proof.
  apply (occupied_never_offered 1
    (mkConfig Learning (mkLrn [Unknown; Occupied; Free; Free] false)
       [Ok (reply_frame 0 1); Ok (reply_frame 2 1)])
    (mkConfig Learning (mkLrn [Unknown; Occupied; Occupied; Free] false) [])
    [Sent (discovery_request 0); PrintLrnAvailable [0; 0; 0; 1] 1;
     Sent (assign_request 2); PrintAssigned 2]
    1 1 3); reflexivity.
Defined.

(** *** The confirmation of an assignment *)

(** X15: when the reply to the assignment of [i] reports address [i], the
    pass ends with the range [i, i + reported_size) marked [Occupied] and
    the message that address [i] was assigned as its last output. *)
Theorem assignment_confirmed `{Transport Bus} (context context1 context2 : Bus)
    (st : lrn_state) (response response2 : EltakoDiscoveryReply) (i : nat) :
  (1 <= length (usage_map st))%nat ->
  exchange context (discovery_request 0) EltakoDiscoveryReply_parse
    = (Ok response, context1) ->
  find_slot (usage_map st) (Z.to_nat (reported_size response)) = Some i ->
  exchange context1 (assign_request i) EltakoDiscoveryReply_parse
    = (Ok response2, context2) ->
  reported_address response2 = Z.of_nat i ->
  exists m',
    lrn_step context st
    = Continue (mkLrn m' (reported st)) context2
        [Sent (discovery_request 0);
         PrintLrnAvailable (model response) (reported_size response);
         Sent (assign_request i); PrintAssigned i] /\
    (length (usage_map st) <= length m')%nat /\
    forall j, (i <= j < i + Z.to_nat (reported_size response))%nat ->
              m' !! j = Some Occupied.
Proof.
  intros Hlen Hex Hslot Hex2 Haddr.
  pose proof (find_slot_first (usage_map st) (Z.to_nat (reported_size response)))
    as Hf.
  rewrite Hslot in Hf. destruct Hf as (Hi & _).
  eexists. split; [|split].
  - unfold lrn_step. rewrite Hex, Hslot, Hex2, Haddr.
    destruct (Z.eqb_spec (Z.of_nat i) 0) as [Hz|_]; [lia|].
    rewrite Z.eqb_refl. reflexivity.
  - apply slice_assign_length, length_replicate.
  - intros j Hj. apply slice_assign_lookup_in; [|exact Hj].
    eapply find_slot_le_length; eassumption.
Qed.

Lemma assignment_confirmed_witness :
  exists m',
    lrn_step [Ok (reply_frame 0 1); Ok (reply_frame 4 1)]
      (mkLrn [Unknown; Occupied; Occupied; Occupied; Free] false)
    = Continue (mkLrn m' false) []
        [Sent (discovery_request 0); PrintLrnAvailable [0; 0; 0; 1] 1;
         Sent (assign_request 4); PrintAssigned 4] /\
    m' !! 4%nat = Some Occupied.
Proof.
  destruct (assignment_confirmed
    [Ok (reply_frame 0 1); Ok (reply_frame 4 1)] [Ok (reply_frame 4 1)] []
    (mkLrn [Unknown; Occupied; Occupied; Occupied; Free] false)
    (mkReply 0 1 [0; 0; 0; 1]) (mkReply 4 1 [0; 0; 0; 1]) 4)
    as (m' & Hstep & _ & Hocc);
    [simpl; lia | reflexivity | reflexivity | reflexivity | reflexivity |].
  exists m'. split; [exact Hstep | apply Hocc; simpl; lia].
Defined.

(** X16: the confirmation exchange is not guarded: any exception it
    raises, [TimeoutError] included, ends the run, and so does a reply
    that reports an address other than 0 and the one offered. *)
Theorem confirmation_failure_fatal `{Transport Bus} (context context1 context2 : Bus)
    (st : lrn_state) (response : EltakoDiscoveryReply) (i : nat)
    (r2 : result EltakoDiscoveryReply) :
  exchange context (discovery_request 0) EltakoDiscoveryReply_parse
    = (Ok response, context1) ->
  find_slot (usage_map st) (Z.to_nat (reported_size response)) = Some i ->
  exchange context1 (assign_request i) EltakoDiscoveryReply_parse = (r2, context2) ->
  match r2 with
  | Raise e => exists out, lrn_step context st = Abort e out
  | Ok response2 =>
      reported_address response2 <> 0 ->
      reported_address response2 <> Z.of_nat i ->
      exists out, lrn_step context st = Abort AssertionError out
  end.
Proof.
  intros Hex Hslot Hex2. unfold lrn_step. rewrite Hex, Hslot, Hex2.
  destruct r2 as [response2|e]; [|eexists; reflexivity].
  intros H0 Hi.
  destruct (Z.eqb_spec (reported_address response2) 0); [contradiction|].
  destruct (Z.eqb_spec (reported_address response2) (Z.of_nat i)); [contradiction|].
  eexists. reflexivity.
Qed.

Lemma confirmation_failure_fatal_witness :
  exists out,
    lrn_step [Ok (reply_frame 0 1); Ok timeout_frame]
      (mkLrn [Unknown; Occupied; Free] false)
    = Abort TimeoutError out.
Proof.
  apply (confirmation_failure_fatal
    [Ok (reply_frame 0 1); Ok timeout_frame] [Ok timeout_frame] []
    (mkLrn [Unknown; Occupied; Free] false) (mkReply 0 1 [0; 0; 0; 1]) 2
    (Raise TimeoutError)); reflexivity.
Defined.

(** *** Sizes at the edges *)

(** X17: a learn-mode device of size 0 is offered address 1 whatever the
    map says, and its reservation changes nothing; a device of size 253
    or more is never offered an address, on any map. *)
Theorem find_slot_edge_sizes (m : usage) (size : nat) :
  find_slot m 0 = Some 1%nat /\
  slice_assign m 1 (1 + 0) (replicate 0 Occupied) = m /\
  find_slot m (253 + size) = None.
Proof.
  split; [|split].
  - pose proof (find_slot_first m 0) as Hf.
    assert (Hav : available m 1 0) by (intros j Hj; lia).
    destruct (find_slot m 0) as [i|].
    + destruct Hf as (H1 & _ & _ & Hmin).
      destruct (decide (i = 1%nat)) as [->|Hne]; [reflexivity|].
      exfalso. apply (Hmin 1%nat); [lia | exact Hav].
    + exfalso. apply (Hf 1%nat); [lia | lia | exact Hav].
  - unfold slice_assign. destruct m; reflexivity.
  - pose proof (find_slot_first m (253 + size)) as Hf.
    destruct (find_slot m (253 + size)) as [i|]; [|reflexivity].
    destruct Hf as (H1 & H2 & _). lia.
Qed.



(** ** [assign] *)

(** X19: [assign] builds its second request only after the first round
    trip: with a new address that is not a byte it raises [ValueError]
    once the learn-mode probe has been sent and its response printed. *)
Theorem assign_address_out_of_range `{Transport Bus} (context context1 : Bus)
    (new_busaddress : Z) (request1 response1 : bytes) (m1 : EltakoMessage) :
  is_byte new_busaddress = false ->
  EltakoMessage_serialize (discovery_request 0) = Ok request1 ->
  request context request1 = (Ok response1, context1) ->
  EltakoMessage_parse response1 = Ok m1 ->
  assign context new_busaddress = (Raise ValueError, context1, [m1]).
Proof.
  intros Hb Hs Hreq Hp. unfold assign.
  change (mkEltako 240 0 zeros8 true) with (discovery_request 0).
  rewrite Hs, Hreq, Hp.
  unfold EltakoMessage_serialize, EltakoMessage_body, mk_bytes. simpl.
  rewrite Hb. reflexivity.
Qed.

Lemma assign_address_out_of_range_witness :
  assign [Ok timeout_frame; Ok timeout_frame] 300
  = (Raise ValueError, [Ok timeout_frame], [mkEltako 248 0 zeros8 false]).
Proof.
  eapply (assign_address_out_of_range [Ok timeout_frame; Ok timeout_frame]
            [Ok timeout_frame] 300 _ timeout_frame); reflexivity.
Defined.

(** X20: with a byte for the new address and two responses delivered,
    [assign] returns normally exactly when both responses are frames
    [EltakoMessage.parse] accepts, and it prints the two messages; unlike
    [exchange] it does not single out the timeout frame. *)
Theorem assign_returns_iff `{Transport Bus} (context context1 context2 : Bus)
    (new_busaddress : Z) (request1 request2 response1 response2 : bytes)
    (m1 m2 : EltakoMessage) :
  EltakoMessage_serialize (discovery_request 0) = Ok request1 ->
  EltakoMessage_serialize (mkEltako 248 new_busaddress zeros8 true) = Ok request2 ->
  request context request1 = (Ok response1, context1) ->
  request context1 request2 = (Ok response2, context2) ->
  (assign context new_busaddress = (Ok tt, context2, [m1; m2])
   <-> EltakoMessage_parse response1 = Ok m1 /\
       EltakoMessage_parse response2 = Ok m2).
Proof.
  intros Hs1 Hs2 Hr1 Hr2. unfold assign.
  change (mkEltako 240 0 zeros8 true) with (discovery_request 0).
  rewrite Hs1, Hr1.
  destruct (EltakoMessage_parse response1) as [a1|e1].
  - rewrite Hs2, Hr2. destruct (EltakoMessage_parse response2) as [a2|e2].
    + split; [intros [= -> ->]; auto | intros [[= ->] [= ->]]; reflexivity].
    + split; [discriminate | intros [_ Hc]; discriminate].
  - split; [discriminate | intros [Hc _]; discriminate].
Qed.

Lemma assign_returns_iff_witness :
  assign [Ok timeout_frame; Ok timeout_frame] 30
  = (Ok tt, [], [mkEltako 248 0 zeros8 false; mkEltako 248 0 zeros8 false]).
Proof.
  eapply (assign_returns_iff [Ok timeout_frame; Ok timeout_frame]
            [Ok timeout_frame] [] 30 _ _ timeout_frame timeout_frame);
    [reflexivity | reflexivity | reflexivity | reflexivity |].
  split; reflexivity.
Defined.

(** ** [b2a] *)

Lemma format_02x_nat (n : nat) :
  (n < 256)%nat ->
  format_02x (Z.of_nat n)
  = [hex_digit (Z.of_nat n / 16); hex_digit (Z.of_nat n mod 16)].
Proof.
  intros Hn. do 256 (destruct n as [|n]; [reflexivity|]). lia.
Qed.

Lemma is_byte_range (b : Z) : is_byte b = true <-> 0 <= b < 256.
Proof.
  unfold is_byte. rewrite andb_true_iff, Z.leb_le, Z.ltb_lt. reflexivity.
Qed.

Lemma format_02x_byte (b : Z) :
  is_byte b = true -> format_02x b = [hex_digit (b / 16); hex_digit (b mod 16)].
Proof.
  intros Hb. apply is_byte_range in Hb.
  rewrite <- (Z2Nat.id b) by lia. apply format_02x_nat. lia.
Qed.

Lemma hex_digit_inj (x y : Z) :
  0 <= x < 16 -> 0 <= y < 16 -> hex_digit x = hex_digit y -> x = y.
Proof.
  intros Hx Hy.
  rewrite <- (Z2Nat.id x), <- (Z2Nat.id y) by lia.
  assert (Hnx : (Z.to_nat x < 16)%nat) by lia.
  assert (Hny : (Z.to_nat y < 16)%nat) by lia.
  revert Hnx Hny. generalize (Z.to_nat x) (Z.to_nat y). intros n k Hn Hk.
  do 16 (destruct n as [|n]; [do 16 (destruct k as [|k];
    [first [reflexivity | (intros Hc; vm_compute in Hc; discriminate)]|]); lia|]).
  lia.
Qed.

Lemma format_02x_inj (x y : Z) :
  is_byte x = true -> is_byte y = true -> format_02x x = format_02x y -> x = y.
Proof.
  intros Hx Hy. rewrite (format_02x_byte x Hx), (format_02x_byte y Hy).
  apply is_byte_range in Hx. apply is_byte_range in Hy.
  intros [= Hhi Hlo].
  apply hex_digit_inj in Hhi;
    [|split; [apply Z.div_pos | apply Z.div_lt_upper_bound]; lia ..].
  apply hex_digit_inj in Hlo; [|apply Z.mod_pos_bound; lia ..].
  rewrite (Z.div_mod x 16), (Z.div_mod y 16) by lia. congruence.
Qed.

Lemma b2a_cons (x : Z) (l : bytes) :
  b2a (x :: l)
  = match l with
    | [] => format_02x x
    | _ :: _ => format_02x x ++ " "%char :: b2a l
    end.
Proof. destruct l; reflexivity. Qed.

(** X21: on a byte string of [n >= 1] bytes [b2a] gives [3 * n - 1]
    characters, two per byte and a space between neighbours; on the empty
    byte string it gives the empty string. *)
Theorem b2a_length (rawdata : bytes) :
  is_bytes rawdata -> length (b2a rawdata) = (3 * length rawdata - 1)%nat.
Proof.
  induction rawdata as [|x l IH]; intros Hb; [reflexivity|].
  apply is_bytes_cons in Hb as [Hx Hl]. rewrite b2a_cons.
  destruct l as [|y l].
  - rewrite (format_02x_byte x Hx). reflexivity.
  - rewrite length_app. cbn [length]. rewrite (IH Hl).
    rewrite (format_02x_byte x Hx). cbn [length]. lia.
Qed.

Lemma b2a_length_witness :
  length (b2a [165; 90; 0; 255]) = (3 * length [165; 90; 0; 255] - 1)%nat.
Proof. apply (b2a_length [165; 90; 0; 255]). reflexivity. Defined.

(** X22: [b2a] tells byte strings apart: two byte strings printed alike
    are equal. *)
Theorem b2a_injective (a b : bytes) :
  is_bytes a -> is_bytes b -> b2a a = b2a b -> a = b.
Proof.
  revert b. induction a as [|x a IH]; intros b Ha Hb Heq.
  - destruct b as [|y b]; [reflexivity|].
    apply is_bytes_cons in Hb as [Hy _].
    rewrite b2a_cons, (format_02x_byte y Hy) in Heq.
    destruct b; discriminate.
  - destruct b as [|y b].
    { apply is_bytes_cons in Ha as [Hx _].
      rewrite b2a_cons, (format_02x_byte x Hx) in Heq.
      destruct a; discriminate. }
    apply is_bytes_cons in Ha as [Hx Ha]. apply is_bytes_cons in Hb as [Hy Hb].
    rewrite !b2a_cons in Heq.
    rewrite (format_02x_byte x Hx), (format_02x_byte y Hy) in Heq.
    assert (Hxy : x = y /\ b2a a = b2a b).
    { destruct a as [|x' a], b as [|y' b]; simpl in Heq.
      - split; [|reflexivity].
        apply format_02x_inj; try assumption.
        rewrite (format_02x_byte x Hx), (format_02x_byte y Hy). exact Heq.
      - discriminate.
      - discriminate.
      - injection Heq as Hhi Hlo Hrest. split; [|exact Hrest].
        apply format_02x_inj; try assumption.
        rewrite (format_02x_byte x Hx), (format_02x_byte y Hy). congruence. }
    destruct Hxy as [-> Hrest]. f_equal. apply IH; assumption.
Qed.

Lemma b2a_injective_witness : [165; 90] = [165; 90].
Proof. apply (b2a_injective [165; 90] [165; 90]); reflexivity. Defined.

(** ** What the checksum does not see *)

Lemma bsum_Permutation (a b : bytes) : a ≡ₚ b -> bsum a = bsum b.
Proof.
  unfold bsum. induction 1; simpl; lia.
Qed.

(** X23: the checksum is a plain sum, so it does not see the order of the
    body bytes: a frame whose body bytes have been rearranged, checksum
    left alone, is still accepted, with the rearranged body. *)
Theorem checksum_order_blind (body body' : bytes) :
  length body = 11%nat -> body ≡ₚ body' ->
  ESP2Message_parse (preamble ++ body' ++ [bsum body mod 256]) = Ok (mkESP2 body').
Proof.
  intros Hlen Hperm.
  assert (Hlen' : length body' = 11%nat)
    by (rewrite <- Hlen; symmetry; apply Permutation_length; exact Hperm).
  rewrite (bsum_Permutation body body' Hperm).
  destruct (serialize_well_framed body' Hlen') as [Hw Hb].
  apply ESP2Message_parse_Ok.
  change (preamble ++ body' ++ [bsum body' mod 256])
    with (ESP2Message_serialize body').
  rewrite Hb. auto.
Qed.

Lemma checksum_order_blind_witness :
  ESP2Message_parse
    (preamble ++ [240; 171; 0; 0; 0; 0; 0; 0; 0; 0; 7]
       ++ [bsum [171; 240; 0; 0; 0; 0; 0; 0; 0; 0; 7] mod 256])
  = Ok (mkESP2 [240; 171; 0; 0; 0; 0; 0; 0; 0; 0; 7]).
Proof.
  apply (checksum_order_blind [171; 240; 0; 0; 0; 0; 0; 0; 0; 0; 7]
           [240; 171; 0; 0; 0; 0; 0; 0; 0; 0; 7]); [reflexivity|].
  apply perm_swap.
Defined.
